(** * Landing Zone Accelerator: the attach-policy custom resource handler
      and the construct wrappers that register custom resources

    The attach-policy lambda handler talks to AWS Organizations through
    an SDK client.  It is embedded here as a program over an
    abstract client: every request it issues is threaded through a world
    (the state of the external service) and written to a trace, so that
    statements about "the calls issued by an invocation" are statements
    about that trace.

    The constructs [Policy] and [MacieMembers] are embedded as functions
    producing the description of the custom resource they register. *)

From Stdlib Require Import Ascii.
From stdpp Require Import base option list strings gmap.

Local Open Scope string_scope.
Local Open Scope list_scope.
Local Open Scope stdpp_scope.

(** ** JavaScript values used by the handler *)

Module JS.

(** [String(v)] as applied by a template literal to a value that is a
    string or [undefined]. *)
Definition toString (v : option string) : string :=
  match v with
  | Some s => s
  | None => "undefined"
  end.

(** [!!v] for a value that is a string or [undefined]: the empty string
    is falsy. *)
Definition truthy (v : option string) : bool :=
  match v with
  | Some s => negb (String.eqb s "")
  | None => false
  end.

(** [a === b] on values that are strings or [undefined]. *)
Definition strictEq (a b : option string) : bool := bool_decide (a = b).

End JS.

(** ** The lifecycle event and the handler's result *)

Inductive RequestType := Create | Update | Delete.

Module Event.
Record t := mk {
  RequestType : RequestType;
  ResourceProperties : gmap string string;
  PhysicalResourceId : option string
}.
End Event.

Module Response.
Record t := mk {
  PhysicalResourceId : option string;
  Status : string
}.
End Response.

(** ** The Organizations API as the handler uses it *)

Record PolicySummary := {
  Id : option string;
  Arn : option string;
  Name : option string;
  Type_ : option string
}.

(** What the client resolves to.  Only the list request fills the fields;
    attach and detach resolve to an object without them. *)
Record CommandOutput := {
  Policies : option (list PolicySummary);
  NextToken : option string
}.

Inductive Command :=
| ListPoliciesForTargetCommand (Filter TargetId NextToken : option string)
| AttachPolicyCommand (PolicyId TargetId : option string)
| DetachPolicyCommand (PolicyId TargetId : option string).

Definition Error := string.

(** The settlement of a promise: resolved with a value or rejected. *)
Inductive Res (A : Type) :=
| Ok (a : A)
| Throw (e : Error).
Arguments Ok {A} a.
Arguments Throw {A} e.

(** [OrganizationsClient]: [send] runs a request against the external
    service, whose state is the world. *)
Class OrganizationsClient (World : Type) := {
  send : Command → World → World * Res CommandOutput
}.

(** The retry policy of the back-off helper: how many times a request is
    issued again, and which rejections count as rate-limit failures. *)
Class BackOffPolicy := {
  maxRetries : nat;
  isThrottlingError : Error → bool
}.

(** One request as the handler issued it, with its settlement. *)
Record Sent := {
  command : Command;
  outcome : Res CommandOutput
}.

Definition Trace := list Sent.

Section Handler.

Context {World : Type} {client : OrganizationsClient World}
        {policy : BackOffPolicy}.

(** *** Computations of the handler

    A computation runs from a world and, unless it does not finish
    ([None]), yields the world it leaves, the requests it issued in
    order, and its settlement. *)
Definition M (A : Type) : Type :=
  World → option (World * Trace * Res A).

Definition ret {A} (a : A) : M A := λ w, Some (w, [], Ok a).

Definition bind {A B} (m : M A) (k : A → M B) : M B := λ w,
  match m w with
  | None => None
  | Some (w1, t1, Throw e) => Some (w1, t1, Throw e)
  | Some (w1, t1, Ok a) =>
      match k a w1 with
      | None => None
      | Some (w2, t2, r) => Some (w2, t1 ++ t2, r)
      end
  end.

(** A loop that has not finished within the pages allowed. *)
Definition pending {A} : M A := λ _, None.

(** [await organizationsClient.send(cmd)] *)
Definition awaitSend (cmd : Command) : M CommandOutput := λ w,
  let '(w', r) := send cmd w in
  Some (w', [{| command := cmd; outcome := r |}], r).

(** Modelled from the spec: [throttlingBackOff] of the package
    [@aws-accelerator/utils] is not among the sources.  The spec has it
    as a retry helper that re-issues a failed call when the failure is
    rate-limit-related and leaves the retry policy open; how many times a
    request is issued again and the test for a rate-limit failure are
    taken from [BackOffPolicy].  Every attempt runs the request anew, so
    that the requests of all attempts are in the trace.  Delays are not
    modelled. *)
Fixpoint throttlingBackOff {A : Type} (attempts : nat) (request : M A) : M A :=
  λ w,
    match request w with
    | None => None
    | Some (w', t, Ok a) => Some (w', t, Ok a)
    | Some (w', t, Throw e) =>
        if isThrottlingError e then
          match attempts with
          | O => Some (w', t, Throw e)
          | S n =>
              match throttlingBackOff n request w' with
              | None => None
              | Some (w'', t', r) => Some (w'', t ++ t', r)
              end
          end
        else Some (w', t, Throw e)
    end.

(** [await throttlingBackOff(() => organizationsClient.send(cmd))] *)
Definition awaitBackOff (cmd : Command) : M CommandOutput :=
  throttlingBackOff maxRetries (awaitSend cmd).

#[global] Instance M_ret : MRet M := @ret.
#[global] Instance M_bind : MBind M := λ A B k m, bind m k.

(** [for (const x of xs) body]: a body yields [Some r] when it executes
    [return r], which leaves the loop and the enclosing function. *)
Fixpoint forOf {A R} (xs : list A) (body : A → M (option R)) : M (option R) :=
  match xs with
  | [] => ret None
  | x :: rest =>
      r ← body x;
      match r with
      | Some v => ret (Some v)
      | None => forOf rest body
      end
  end.

(** [for await (const page of paginateListPoliciesForTarget(...)) body]:
    the SDK paginator requests a page with the current token, hands it
    to the body, and goes on while the page carries a truthy
    [NextToken].  [fuel] bounds the number of pages requested. *)
Fixpoint paginateListPoliciesForTarget {R} (fuel : nat)
    (Filter TargetId token : option string)
    (body : CommandOutput → M (option R)) : M (option R) :=
  match fuel with
  | O => pending
  | S fuel' =>
      page ← awaitSend (ListPoliciesForTargetCommand Filter TargetId token);
      r ← body page;
      match r with
      | Some v => ret (Some v)
      | None =>
          if JS.truthy (NextToken page)
          then paginateListPoliciesForTarget fuel' Filter TargetId
                 (NextToken page) body
          else ret None
      end
  end.

(** *** The handler *)
Definition handler (fuel : nat) (event : Event.t) : M (option Response.t) :=
  let policyId := Event.ResourceProperties event !! "policyId" in
  let targetId := Event.ResourceProperties event !! "targetId" in
  let type := Event.ResourceProperties event !! "type" in
  match Event.RequestType event with
  | Create | Update =>
      found ← paginateListPoliciesForTarget fuel type targetId None
        (λ page,
           forOf (default [] (Policies page))
             (λ policy,
                if JS.strictEq (Id policy) policyId
                then ret (Some {|
                  Response.PhysicalResourceId :=
                    Some (JS.toString policyId +:+ "_" +:+ JS.toString targetId);
                  Response.Status := "SUCCESS" |})
                else ret None));
      match found with
      | Some result => ret (Some result)
      | None =>
          _ ← awaitBackOff (AttachPolicyCommand policyId targetId);
          ret (Some {|
            Response.PhysicalResourceId :=
              Some (JS.toString policyId +:+ "_" +:+ JS.toString targetId);
            Response.Status := "SUCCESS" |})
      end
  | Delete =>
      _ ← (if negb (JS.strictEq policyId (Some "p-FullAWSAccess"))
           then
             paginateListPoliciesForTarget (R := Response.t)
               fuel type targetId None
               (λ page,
                  forOf (default [] (Policies page))
                    (λ policy,
                       if JS.strictEq (Id policy) policyId
                       then
                         _ ← awaitBackOff (DetachPolicyCommand policyId targetId);
                         ret None
                       else ret None))
           else ret None);
      ret (Some {|
        Response.PhysicalResourceId := Event.PhysicalResourceId event;
        Response.Status := "SUCCESS" |})
  end.

End Handler.

(** ** Observations on a trace *)

Definition isList (c : Command) : bool :=
  match c with ListPoliciesForTargetCommand _ _ _ => true | _ => false end.

Definition isAttach (c : Command) : bool :=
  match c with AttachPolicyCommand _ _ => true | _ => false end.

Definition isDetach (c : Command) : bool :=
  match c with DetachPolicyCommand _ _ => true | _ => false end.

Definition isMutation (c : Command) : bool := isAttach c || isDetach c.

Definition resolved (s : Sent) : bool :=
  match outcome s with Ok _ => true | Throw _ => false end.

(** The requests of one kind issued along a trace, in order. *)
Definition calls (kind : Command → bool) (t : Trace) : list Command :=
  List.filter kind (command <$> t).

Definition attachCalls : Trace → list Command := calls isAttach.
Definition detachCalls : Trace → list Command := calls isDetach.
Definition mutationCalls : Trace → list Command := calls isMutation.

(** The attach and detach requests that the service carried out. *)
Definition appliedMutations (t : Trace) : list Command :=
  command <$> List.filter (λ s, isMutation (command s) && resolved s) t.

(** The pages the listing delivered along a trace. *)
Definition pagesOf (t : Trace) : list CommandOutput :=
  omap (λ s, match command s, outcome s with
             | ListPoliciesForTargetCommand _ _ _, Ok page => Some page
             | _, _ => None
             end) t.

(** The entries of a page whose id is [policyId]. *)
Definition matching (policyId : option string) (page : CommandOutput)
    : list PolicySummary :=
  List.filter (λ p, JS.strictEq (Id p) policyId) (default [] (Policies page)).

Definition listed (policyId : option string) (page : CommandOutput) : bool :=
  existsb (λ p, JS.strictEq (Id p) policyId) (default [] (Policies page)).

(** The number of entries with id [policyId] over a list of pages. *)
Definition occurrences (policyId : option string) (pages : list CommandOutput) : nat :=
  length (concat (matching policyId <$> pages)).

(** ** A scripted client

    A test double for the SDK client: it answers the requests, whatever
    they are, with the settlements it was loaded with, in order. *)
Module Scripted.

Definition World := list (Res CommandOutput).

#[export] Instance client : OrganizationsClient World := {|
  send _ w :=
    match w with
    | [] => ([], Throw "NoMoreResponses")
    | r :: rest => (rest, r)
    end
|}.

(** Retries rate-limit failures named [TooManyRequestsException]. *)
#[export] Instance policy : BackOffPolicy := {|
  maxRetries := 3;
  isThrottlingError e := String.eqb e "TooManyRequestsException"
|}.

Definition summary (id : string) : PolicySummary :=
  {| Id := Some id; Arn := None; Name := None; Type_ := None |}.

Definition page (ids : list string) (next : option string) : CommandOutput :=
  {| Policies := Some (summary <$> ids); NextToken := next |}.

Definition ack : CommandOutput := {| Policies := None; NextToken := None |}.

End Scripted.

(** The events of the scenarios. *)
Definition scpEvent (rt : RequestType) (policyId : string)
    (physical : option string) : Event.t :=
  {| Event.RequestType := rt;
     Event.ResourceProperties :=
       <["policyId" := policyId]>
         (<["targetId" := "ou-5678"]>
            (<["type" := "SERVICE_CONTROL_POLICY"]> ∅));
     Event.PhysicalResourceId := physical |}.

(** ** The construct wrappers

    A construct is embedded by what it registers: the custom resource
    handed to the deployment engine.  The asset bundling and the provider
    lookup belong to the CDK and enter through [Cdk]; [uuidv4] draws from
    a generator that is threaded through the constructions. *)
Module Constructs.

Inductive PolicyType :=
| AISERVICES_OPT_OUT_POLICY
| BACKUP_POLICY
| SERVICE_CONTROL_POLICY
| TAG_POLICY.

(** The string each member of the enum stands for. *)
Definition policyTypeValue (t : PolicyType) : string :=
  match t with
  | AISERVICES_OPT_OUT_POLICY => "AISERVICES_OPT_OUT_POLICY"
  | BACKUP_POLICY => "BACKUP_POLICY"
  | SERVICE_CONTROL_POLICY => "SERVICE_CONTROL_POLICY"
  | TAG_POLICY => "TAG_POLICY"
  end.

Record Tag := {
  Key : option string;
  Value : option string
}.

(** The values a property of a custom resource takes here. *)
Inductive PropertyValue :=
| PString (s : string)
| PTags (ts : list Tag).

(** The props of a policy.  The interface names five props and is open:
    the object passed may have own properties besides them, which are
    kept in [others] (an entry of [others] under one of the five names is
    not read). *)
Record PolicyProps := {
  path : string;
  name : string;
  description : option string;
  type : PolicyType;
  tags : option (list Tag);
  others : gmap string PropertyValue
}.


Record CustomResource := {
  resourceType : string;
  serviceToken : string;
  properties : gmap string PropertyValue
}.

(** The asset object that [new assets.Asset(this, 'Policy', { path })]
    gives: the CDK bundles the file at the path and chooses the bucket
    and the object key, the key from what the file holds. *)
Record Asset := {
  s3BucketName : string;
  s3ObjectKey : string
}.

(** The service token of the provider that
    [cdk.CustomResourceProvider.getOrCreateProvider] gives for a resource
    type. *)
Class Cdk := {
  providerServiceToken : string → string
}.

(** The generator behind [uuidv4()]. *)
Class UuidGenerator (G : Type) := {
  uuidv4 : G → string * G
}.

(** The own properties of the object besides the five declared ones. *)
Definition undeclared (props : PolicyProps) : gmap string PropertyValue :=
  delete "path"
    (delete "name"
       (delete "description" (delete "type" (delete "tags" (others props))))).

(** [{ ...o, ...props }] for [props : PolicyProps]: every own property of
    [props] is written over the property of [o] with the same name; an
    optional prop that is absent writes nothing. *)
Definition spreadPolicyProps (props : PolicyProps)
    (o : gmap string PropertyValue) : gmap string PropertyValue :=
  let o0 := undeclared props ∪ o in
  let o1 := <["path" := PString (path props)]> o0 in
  let o2 := <["name" := PString (name props)]> o1 in
  let o3 := match description props with
            | Some d => <["description" := PString d]> o2
            | None => o2
            end in
  let o4 := <["type" := PString (policyTypeValue (type props))]> o3 in
  match tags props with
  | Some ts => <["tags" := PTags ts]> o4
  | None => o4
  end.

Section Wrappers.

Context {cdk : Cdk} {G : Type} {gen : UuidGenerator G}.

(** The custom resource registered by [new Policy(scope, id, props)],
    where [asset] is the asset that the constructor has bundled from
    [props.path]; when the file cannot be bundled the constructor raises
    before it registers anything. *)
Definition Policy (asset : Asset) (props : PolicyProps) (g : G)
    : CustomResource * G :=
  let '(uuid, g') := uuidv4 g in
  ({| resourceType := "Custom::CreatePolicy";
      serviceToken := providerServiceToken "Custom::OrganizationsCreatePolicy";
      properties :=
        spreadPolicyProps props
          (<["uuid" := PString uuid]>
             (<["key" := PString (s3ObjectKey asset)]>
                (<["bucket" := PString (s3BucketName asset)]> ∅))) |},
   g').


End Wrappers.

(** A generator that hands out tokens drawn beforehand, a CDK, and the
    asset of a policy file. *)
Module Drawn.

#[export] Instance gen : UuidGenerator (list string) := {|
  uuidv4 g :=
    match g with
    | [] => ("", [])
    | u :: rest => (u, rest)
    end
|}.

#[export] Instance cdk : Cdk := {|
  providerServiceToken p := "arn:" +:+ p
|}.




End Drawn.

End Constructs.

(** ** What the service answers to a listing

    The assumptions of the statements below about the external service
    are phrased on the answers its listing gives from a world. *)
Section Listings.

Context {World : Type} {client : OrganizationsClient World}.

Variables Filter TargetId : option string.

(** [ListsAll token w pages w']: from [w], the pages requested from
    [token] on all arrive, [pages] in this order, the last one without
    a truthy [NextToken]; the requests leave the world [w']. *)
Inductive ListsAll : option string → World → list CommandOutput → World → Prop :=
| ListsAll_last token w w' page :
    send (ListPoliciesForTargetCommand Filter TargetId token) w = (w', Ok page) →
    JS.truthy (NextToken page) = false →
    ListsAll token w [page] w'
| ListsAll_next token w w1 w' page pages :
    send (ListPoliciesForTargetCommand Filter TargetId token) w = (w1, Ok page) →
    JS.truthy (NextToken page) = true →
    ListsAll (NextToken page) w1 pages w' →
    ListsAll token w (page :: pages) w'.

(** [ListsUntil policyId token w pages w']: from [w], the pages
    requested from [token] on arrive up to the first one that lists
    [policyId], which is the last of [pages]. *)
Inductive ListsUntil (policyId : option string)
    : option string → World → list CommandOutput → World → Prop :=
| ListsUntil_found token w w' page :
    send (ListPoliciesForTargetCommand Filter TargetId token) w = (w', Ok page) →
    listed policyId page = true →
    ListsUntil policyId token w [page] w'
| ListsUntil_next token w w1 w' page pages :
    send (ListPoliciesForTargetCommand Filter TargetId token) w = (w1, Ok page) →
    listed policyId page = false →
    JS.truthy (NextToken page) = true →
    ListsUntil policyId (NextToken page) w1 pages w' →
    ListsUntil policyId token w (page :: pages) w'.

(** The trace of requesting [pages] one after the other from [token]. *)
Fixpoint listTrace (token : option string) (pages : list CommandOutput) : Trace :=
  match pages with
  | [] => []
  | page :: rest =>
      {| command := ListPoliciesForTargetCommand Filter TargetId token;
         outcome := Ok page |} :: listTrace (NextToken page) rest
  end.

End Listings.

(** ** What the service answers along a delete

    On Delete the detach requests fall between the requests for the
    pages, so that what the service answers is described along the run. *)
Section DeleteListings.

Context {World : Type} {client : OrganizationsClient World}
        {policy : BackOffPolicy}.

Variables Filter TargetId policyId : option string.

(** [DetachesEach n w t w']: from [w], [n] detach requests made one
    after the other through the back-off helper are resolved each, with
    the attempts [t]. *)
Inductive DetachesEach : nat → World → Trace → World → Prop :=
| DetachesEach_O w : DetachesEach 0 w [] w
| DetachesEach_S n w w1 w' attempts out t :
    throttlingBackOff maxRetries
      (awaitSend (DetachPolicyCommand policyId TargetId)) w
      = Some (w1, attempts, Ok out) →
    DetachesEach n w1 t w' →
    DetachesEach (S n) w (attempts ++ t) w'.

(** [ListsAndDetaches token w pages t w']: from [w], the pages requested
    from [token] on all arrive, [pages] in this order, and after each
    page one detach request for every entry of it with the policy's id is
    resolved; [t] are the requests of it all. *)
Inductive ListsAndDetaches
    : option string → World → list CommandOutput → Trace → World → Prop :=
| ListsAndDetaches_last token w w1 w' page t :
    send (ListPoliciesForTargetCommand Filter TargetId token) w = (w1, Ok page) →
    DetachesEach (length (matching policyId page)) w1 t w' →
    JS.truthy (NextToken page) = false →
    ListsAndDetaches token w [page]
      ({| command := ListPoliciesForTargetCommand Filter TargetId token;
          outcome := Ok page |} :: t) w'
| ListsAndDetaches_next token w w1 w2 w' page pages t t' :
    send (ListPoliciesForTargetCommand Filter TargetId token) w = (w1, Ok page) →
    DetachesEach (length (matching policyId page)) w1 t w2 →
    JS.truthy (NextToken page) = true →
    ListsAndDetaches (NextToken page) w2 pages t' w' →
    ListsAndDetaches token w (page :: pages)
      ({| command := ListPoliciesForTargetCommand Filter TargetId token;
          outcome := Ok page |} :: t ++ t') w'.

End DeleteListings.

(** ** Shapes of traces *)

(** A trace agrees with a settlement when a rejection is the rejection of
    its last request and every other request was resolved. *)
Definition Faithful {A} (t : Trace) (r : Res A) : Prop :=
  match r with
  | Ok _ => Forall (λ s, resolved s = true) t
  | Throw e =>
      ∃ pre cmd, t = pre ++ [{| command := cmd; outcome := Throw e |}]
                 ∧ Forall (λ s, resolved s = true) pre
  end.

(** The error a settlement carries, if it is a rejection. *)
Definition rejection {A} (r : Res A) : option Error :=
  match r with
  | Ok _ => None
  | Throw e => Some e
  end.

(** An attempt at [cmd] that was rejected as a rate-limit failure. *)
Definition throttled `{BackOffPolicy} (cmd : Command) (s : Sent) : Prop :=
  command s = cmd ∧ ∃ e, outcome s = Throw e ∧ isThrottlingError e = true.

(** [Settles t fe]: in the trace [t] every request was resolved, but for
    attach and detach requests rejected as rate-limit failures, each
    followed at once by the same request again, and, when [fe] is an
    error, for the last request, which was rejected with it. *)
Inductive Settles `{BackOffPolicy} : Trace → option Error → Prop :=
| Settles_nil : Settles [] None
| Settles_resolved s t fe :
    resolved s = true → Settles t fe → Settles (s :: t) fe
| Settles_retried s s' t fe e :
    isMutation (command s) = true →
    outcome s = Throw e →
    isThrottlingError e = true →
    command s' = command s →
    Settles (s' :: t) fe →
    Settles (s :: s' :: t) fe
| Settles_rejected s e :
    outcome s = Throw e → Settles [s] (Some e).

(** The response of the create and update branch. *)
Definition attached (policyId targetId : option string) : Response.t :=
  {| Response.PhysicalResourceId :=
       Some (JS.toString policyId +:+ "_" +:+ JS.toString targetId);
     Response.Status := "SUCCESS" |}.

(** The response of the delete branch. *)
Definition detached (event : Event.t) : Response.t :=
  {| Response.PhysicalResourceId := Event.PhysicalResourceId event;
     Response.Status := "SUCCESS" |}.

(** ** Scenarios

    Worlds of the scripted client and the events run against them. *)
Module Scenarios.

Import Scripted.

Definition createEvent : Event.t := scpEvent Create "p-1234" None.

Definition updateEvent : Event.t :=
  scpEvent Update "p-1234" (Some "p-1234_ou-5678").

Definition deleteEvent : Event.t :=
  scpEvent Delete "p-1234" (Some "p-1234_ou-5678").

Definition deleteProtectedEvent : Event.t :=
  scpEvent Delete "p-FullAWSAccess" (Some "p-FullAWSAccess_ou-5678").

(** Two pages without the policy. *)
Definition otherPages : list CommandOutput :=
  [page ["p-FullAWSAccess"] (Some "token-1"); page ["p-0001"] None].

(** One page that lists the policy. *)
Definition attachedPage : CommandOutput :=
  page ["p-FullAWSAccess"; "p-1234"] None.

(** The policy is not attached; an attach is accepted and shows in the
    listing afterwards. *)
Definition notAttached : World :=
  (Ok <$> otherPages) ++ [Ok ack; Ok attachedPage].

(** The policy is attached already. *)
Definition alreadyAttached : World := [Ok attachedPage; Ok attachedPage].

(** The policy is listed on the first of two pages; the detach is
    accepted and the request for the second page is rejected. *)
Definition secondPageDenied : World :=
  [Ok (page ["p-1234"] (Some "token-1")); Ok ack; Throw "AccessDeniedException"].

(** The policy is listed three times over two pages and every detach
    is accepted. *)
Definition repeated : World :=
  [Ok (page ["p-1234"; "p-0001"; "p-1234"] (Some "token-1")); Ok ack; Ok ack;
   Ok (page ["p-1234"] None); Ok ack].

(** The policy is not listed and the attach is rejected. *)
Definition attachDenied : World :=
  [Ok (page ["p-0001"] None); Throw "AccessDeniedException"].

(** [handler] against the scripted client. *)
Definition run (fuel : nat) (event : Event.t) (w : World)
    : option (World * Trace * Res (option Response.t)) :=
  handler fuel event w.

(** The entries of the traces of these runs. *)
Definition listSent (token : option string) (r : Res CommandOutput) : Sent :=
  {| command := ListPoliciesForTargetCommand
                  (Some "SERVICE_CONTROL_POLICY") (Some "ou-5678") token;
     outcome := r |}.

Definition attachSent (r : Res CommandOutput) : Sent :=
  {| command := AttachPolicyCommand (Some "p-1234") (Some "ou-5678");
     outcome := r |}.

Definition detachSent (r : Res CommandOutput) : Sent :=
  {| command := DetachPolicyCommand (Some "p-1234") (Some "ou-5678");
     outcome := r |}.

Definition success (id : string) : Res (option Response.t) :=
  Ok (Some {| Response.PhysicalResourceId := Some id;
              Response.Status := "SUCCESS" |}).

End Scenarios.

(** ** The fields of a [Policy] construct

    Besides registering the custom resource, the constructor of [Policy]
    fills the public fields of the object. *)
Module PolicyConstruct.

Import Constructs.

(** [a || b] for a string [a] that may be [undefined]. *)
Definition orString (a : option string) (b : string) : string :=
  match a with
  | Some s => if String.eqb s "" then b else s
  | None => b
  end.

Record Fields := {
  path : string;
  name : string;
  description : string;
  type : PolicyType;
  tags : list Tag
}.

(** The assignments to [this.path], [this.name], [this.description],
    [this.type] and [this.tags]; an array is truthy even when empty. *)
Definition fields (props : PolicyProps) : Fields :=
  {| path := Constructs.path props;
     name := Constructs.name props;
     description := orString (Constructs.description props) "";
     type := Constructs.type props;
     tags := default [] (Constructs.tags props) |}.

End PolicyConstruct.

(** ** String operations of the tester pipeline *)
Module JSString.

(** [s.split(sep)] for a separator of one character. *)
Fixpoint split (sep : Ascii.ascii) (s : string) : list string :=
  match s with
  | EmptyString => [EmptyString]
  | String c rest =>
      if Ascii.eqb c sep then EmptyString :: split sep rest
      else match split sep rest with
           | [] => [String c EmptyString]
           | first :: others => String c first :: others
           end
  end.

(** [parts.join(sep)] *)
Fixpoint join (sep : string) (parts : list string) : string :=
  match parts with
  | [] => EmptyString
  | [part] => part
  | part :: rest => part +:+ sep +:+ join sep rest
  end.

(** The lower-case form of a character; only the letters A to Z have
    another one among the characters a pattern of ASCII letters can
    match. *)
Definition lower (c : Ascii.ascii) : Ascii.ascii :=
  let n := Ascii.nat_of_ascii c in
  if ((65 <=? n) && (n <=? 90))%nat then Ascii.ascii_of_nat (n + 32) else c.

Fixpoint lowerCase (s : string) : string :=
  match s with
  | EmptyString => EmptyString
  | String c rest => String (lower c) (lowerCase rest)
  end.

(** Whether [s] starts with [pattern], letter case ignored. *)
Fixpoint startsWithIgnoreCase (pattern s : string) : bool :=
  match pattern, s with
  | EmptyString, _ => true
  | String _ _, EmptyString => false
  | String p pattern', String c s' =>
      Ascii.eqb (lower p) (lower c) && startsWithIgnoreCase pattern' s'
  end.

(** [s.replace(/pattern/gi, replacement)] for a pattern of plain
    characters that is not empty: the string is read from the left; where
    the pattern matches, the replacement is written and the matched
    characters are passed over ([skip] counts those still to pass). *)
Fixpoint replaceFrom (pattern replacement : string) (skip : nat) (s : string) : string :=
  match s with
  | EmptyString => EmptyString
  | String c rest =>
      match skip with
      | S skip' => replaceFrom pattern replacement skip' rest
      | O =>
          if startsWithIgnoreCase pattern s
          then replacement +:+ replaceFrom pattern replacement
                                 (String.length pattern - 1) rest
          else String c (replaceFrom pattern replacement 0 rest)
      end
  end.

Definition replaceAllIgnoreCase (pattern replacement s : string) : string :=
  replaceFrom pattern replacement 0 s.

(** Whether the character occurs in the string. *)
Fixpoint includes (c : Ascii.ascii) (s : string) : bool :=
  match s with
  | EmptyString => false
  | String d rest => Ascii.eqb d c || includes c rest
  end.

(** The string with every [a] turned into [b]. *)
Fixpoint substitute (a b : Ascii.ascii) (s : string) : string :=
  match s with
  | EmptyString => EmptyString
  | String c rest => String (if Ascii.eqb c a then b else c) (substitute a b rest)
  end.

End JSString.

(** ** The tester pipeline

    Of the construct [TesterPipeline], the values it computes from its
    props: the names it gives to its resources and the environment of the
    build project.  [pascalCase] belongs to the package change-case and
    is a parameter. *)
Module Tester.

Record TesterPipelineProps := {
  qualifier : string;
  sourceRepositoryName : string;
  sourceBranchName : string;
  managementCrossAccountRoleName : string;
  managementAccountId : option string;
  managementAccountRoleName : option string
}.

Inductive BuildEnvironmentVariableType :=
| PLAINTEXT
| PARAMETER_STORE
| SECRETS_MANAGER.

Record BuildEnvironmentVariable := {
  type : BuildEnvironmentVariableType;
  value : string
}.

(** [targetAcceleratorEnvVariables] after the conditional assignment;
    [None] is [undefined]. *)
Definition targetAcceleratorEnvVariables (props : TesterPipelineProps)
    : option (gmap string BuildEnvironmentVariable) :=
  if JS.truthy (managementAccountId props)
     && JS.truthy (managementAccountRoleName props)
  then Some (<["MANAGEMENT_ACCOUNT_ROLE_NAME" :=
                 {| type := PLAINTEXT;
                    value := JS.toString (managementAccountRoleName props) |}]>
               (<["MANAGEMENT_ACCOUNT_ID" :=
                    {| type := PLAINTEXT;
                       value := JS.toString (managementAccountId props) |}]> ∅))
  else None.

(** [{ ...o, ...extra }] where [extra] may be [undefined]. *)
Definition spread (extra : option (gmap string BuildEnvironmentVariable))
    (o : gmap string BuildEnvironmentVariable)
    : gmap string BuildEnvironmentVariable :=
  match extra with
  | Some m => m ∪ o
  | None => o
  end.

(** The [environmentVariables] of the build project. *)
Definition environmentVariables (props : TesterPipelineProps)
    : gmap string BuildEnvironmentVariable :=
  spread (targetAcceleratorEnvVariables props)
    (<["ACCELERATOR_REPOSITORY_BRANCH_NAME" :=
         {| type := PLAINTEXT; value := sourceBranchName props |}]>
       (<["ACCELERATOR_REPOSITORY_NAME" :=
            {| type := PLAINTEXT; value := sourceRepositoryName props |}]> ∅)).

Section Names.

Variable pascalCase : string → string.

Definition qualifierInPascalCase (props : TesterPipelineProps) : string :=
  JSString.replaceAllIgnoreCase "AwsAccelerator" "AWSAccelerator"
    (JSString.join "-" (JSString.split "_"%char (pascalCase (qualifier props)))).

Definition pipelineName (props : TesterPipelineProps) : string :=
  qualifierInPascalCase props +:+ "-TesterPipeline".

Definition projectName (props : TesterPipelineProps) : string :=
  qualifierInPascalCase props +:+ "-TesterProject".

End Names.

End Tester.

(** ** Events with properties left out *)
Module EdgeScenarios.

Import Scripted.

(** A create event that names a policy and no target. *)
Definition noTargetEvent : Event.t :=
  {| Event.RequestType := Create;
     Event.ResourceProperties :=
       <["policyId" := "p-1234"]> (<["type" := "SERVICE_CONTROL_POLICY"]> ∅);
     Event.PhysicalResourceId := None |}.

(** A create event that names a target and no policy. *)
Definition noPolicyEvent : Event.t :=
  {| Event.RequestType := Create;
     Event.ResourceProperties :=
       <["targetId" := "ou-5678"]> (<["type" := "SERVICE_CONTROL_POLICY"]> ∅);
     Event.PhysicalResourceId := None |}.

(** A page with one entry that carries a name and no id. *)
Definition namelessPage : CommandOutput :=
  {| Policies := Some [{| Id := None; Arn := None;
                          Name := Some "FullAWSAccess"; Type_ := None |}];
     NextToken := None |}.

(** The trace of the create event on [Scenarios.notAttached]. *)
Definition attachTrace : Trace :=
  [Scenarios.listSent None (Ok (page ["p-FullAWSAccess"] (Some "token-1")));
   Scenarios.listSent (Some "token-1") (Ok (page ["p-0001"] None));
   Scenarios.attachSent (Ok ack)].

(** The trace of the delete event on a world where the policy is
    attached. *)
Definition detachTrace : Trace :=
  [Scenarios.listSent None (Ok Scenarios.attachedPage);
   Scenarios.detachSent (Ok ack)].

(** The trace of [noTargetEvent] on a world where nothing is attached. *)
Definition noTargetTrace : Trace :=
  [{| command := ListPoliciesForTargetCommand
                   (Some "SERVICE_CONTROL_POLICY") None None;
      outcome := Ok (page [] None) |};
   {| command := AttachPolicyCommand (Some "p-1234") None;
      outcome := Ok ack |}].

(** Props of a tester pipeline with the management account given in
    full, and with its role name left out. *)
Definition fullProps : Tester.TesterPipelineProps :=
  {| Tester.qualifier := "aws-accelerator";
     Tester.sourceRepositoryName := "accelerator-source";
     Tester.sourceBranchName := "main";
     Tester.managementCrossAccountRoleName := "AWSControlTowerExecution";
     Tester.managementAccountId := Some "111122223333";
     Tester.managementAccountRoleName := Some "AcceleratorRole" |}.

Definition halfProps : Tester.TesterPipelineProps :=
  {| Tester.qualifier := "aws-accelerator";
     Tester.sourceRepositoryName := "accelerator-source";
     Tester.sourceBranchName := "main";
     Tester.managementCrossAccountRoleName := "AWSControlTowerExecution";
     Tester.managementAccountId := Some "111122223333";
     Tester.managementAccountRoleName := None |}.

End EdgeScenarios.

(** ** Worlds that throttle *)
Module ThrottleScenarios.

Import Scripted.

(** The policy is not attached; the first attach is rejected as a
    rate-limit failure and the second is accepted. *)
Definition attachThrottled : World :=
  [Ok (page [] None); Throw "TooManyRequestsException"; Ok ack].

(** The policy is listed once; the first detach is rejected as a
    rate-limit failure and the second is accepted. *)
Definition detachThrottled : World :=
  [Ok (page ["p-1234"] None); Throw "TooManyRequestsException"; Ok ack].

(** The attach is rejected as a rate-limit failure at every attempt. *)
Definition attachAlwaysThrottled : World :=
  [Ok (page [] None); Throw "TooManyRequestsException";
   Throw "TooManyRequestsException"; Throw "TooManyRequestsException";
   Throw "TooManyRequestsException"; Ok ack].

(** The policy is not attached; the first attach is rejected as a
    rate-limit failure, the second is accepted and shows in the listing
    afterwards. *)
Definition notAttachedThrottled : World :=
  (Ok <$> Scenarios.otherPages)
    ++ [Throw "TooManyRequestsException"; Ok ack; Ok Scenarios.attachedPage].

(** The policy is listed three times over two pages; the first detach is
    rejected as a rate-limit failure once and every detach is accepted in
    the end. *)
Definition repeatedPages : list CommandOutput :=
  [page ["p-1234"; "p-0001"; "p-1234"] (Some "token-1"); page ["p-1234"] None].

Definition repeatedThrottled : World :=
  [Ok (page ["p-1234"; "p-0001"; "p-1234"] (Some "token-1"));
   Throw "TooManyRequestsException"; Ok ack; Ok ack;
   Ok (page ["p-1234"] None); Ok ack].

Definition repeatedThrottledTrace : Trace :=
  [Scenarios.listSent None
     (Ok (page ["p-1234"; "p-0001"; "p-1234"] (Some "token-1")));
   Scenarios.detachSent (Throw "TooManyRequestsException");
   Scenarios.detachSent (Ok ack);
   Scenarios.detachSent (Ok ack);
   Scenarios.listSent (Some "token-1") (Ok (page ["p-1234"] None));
   Scenarios.detachSent (Ok ack)].

(** The traces of the create event on [attachThrottled] and of the
    delete event on [detachThrottled]. *)
Definition attachThrottledTrace : Trace :=
  [Scenarios.listSent None (Ok (page [] None));
   Scenarios.attachSent (Throw "TooManyRequestsException");
   Scenarios.attachSent (Ok ack)].

Definition detachThrottledTrace : Trace :=
  [Scenarios.listSent None (Ok (page ["p-1234"] None));
   Scenarios.detachSent (Throw "TooManyRequestsException");
   Scenarios.detachSent (Ok ack)].

(** The trace of the create event on [Scenarios.attachDenied]. *)
Definition attachDeniedTrace : Trace :=
  [Scenarios.listSent None (Ok (page ["p-0001"] None));
   Scenarios.attachSent (Throw "AccessDeniedException")].

End ThrottleScenarios.

(** * Properties *)

Section HandlerFacts.

Context {World : Type} {client : OrganizationsClient World}
        {policy : BackOffPolicy}.

Implicit Types (w : World) (t : Trace) (policyId targetId : option string).

(** *** The monad *)

Lemma bind_unfold {A B} (m : M A) (k : A → M B) w :
  (m ≫= k) w = bind m k w.
Proof. reflexivity. Qed.

Lemma bind_inv {A B} (m : M A) (k : A → M B) w w' t (r : Res B) :
  (m ≫= k) w = Some (w', t, r) →
  (∃ e, m w = Some (w', t, Throw e) ∧ r = Throw e)
  ∨ (∃ w1 t1 a t2,
       m w = Some (w1, t1, Ok a) ∧ k a w1 = Some (w', t2, r) ∧ t = t1 ++ t2).
Proof.
  rewrite bind_unfold. unfold bind.
  destruct (m w) as [[[w1 t1] [a|e]]|]; [| |discriminate].
  - destruct (k a w1) as [[[w2 t2] r2]|] eqn:Hk; [|discriminate].
    intros [= <- <- <-]. right. by exists w1, t1, a, t2.
  - intros [= <- <- <-]. left. by exists e.
Qed.

Lemma bind_ok {A B} (m : M A) (k : A → M B) w w1 t1 a :
  m w = Some (w1, t1, Ok a) →
  (m ≫= k) w = match k a w1 with
               | Some (w2, t2, r) => Some (w2, t1 ++ t2, r)
               | None => None
               end.
Proof.
  intros Hm. rewrite bind_unfold. unfold bind. rewrite Hm.
  by destruct (k a w1) as [[[w2 t2] r2]|].
Qed.

Lemma awaitSend_inv cmd w w' t (r : Res CommandOutput) :
  awaitSend cmd w = Some (w', t, r) →
  send cmd w = (w', r) ∧ t = [{| command := cmd; outcome := r |}].
Proof.
  unfold awaitSend. destruct (send cmd w) as [w1 r1].
  by intros [= <- <- <-].
Qed.

(** *** Observations distribute over the concatenation of traces *)

Lemma calls_app kind t1 t2 : calls kind (t1 ++ t2) = calls kind t1 ++ calls kind t2.
Proof. unfold calls. by rewrite fmap_app, List.filter_app. Qed.

Lemma pagesOf_app t1 t2 : pagesOf (t1 ++ t2) = pagesOf t1 ++ pagesOf t2.
Proof. apply omap_app. Qed.

Lemma appliedMutations_app t1 t2 :
  appliedMutations (t1 ++ t2) = appliedMutations t1 ++ appliedMutations t2.
Proof. unfold appliedMutations. by rewrite List.filter_app, fmap_app. Qed.

Lemma calls_none kind t :
  Forall (λ s, kind (command s) = false) t → calls kind t = [].
Proof.
  unfold calls. induction 1 as [|s t Hs _ IH]; [done|].
  rewrite fmap_cons. simpl. by rewrite Hs.
Qed.

Lemma calls_all kind cmd t :
  kind cmd = true →
  Forall (λ s, command s = cmd) t → calls kind t = replicate (length t) cmd.
Proof.
  intros Hk. unfold calls. induction 1 as [|s t Hs _ IH]; [done|].
  rewrite fmap_cons. simpl. rewrite Hs, Hk. by f_equal.
Qed.

Lemma pagesOf_none t :
  Forall (λ s, isList (command s) = false) t → pagesOf t = [].
Proof.
  induction 1 as [|s t Hs _ IH]; [done|].
  change (s :: t) with ([s] ++ t). rewrite pagesOf_app, IH.
  unfold pagesOf. simpl. by destruct (command s).
Qed.

Lemma pagesOf_listTrace F T token pages :
  pagesOf (listTrace F T token pages) = pages.
Proof.
  revert token. induction pages as [|page rest IH]; intros token; [done|].
  cbn [listTrace].
  match goal with |- pagesOf (?s :: ?t) = _ => change (s :: t) with ([s] ++ t) end.
  by rewrite pagesOf_app, IH.
Qed.

Lemma listTrace_lists F T token pages :
  Forall (λ s, isList (command s) = true) (listTrace F T token pages).
Proof.
  revert token. induction pages as [|page rest IH]; intros token; simpl;
    constructor; auto.
Qed.

(** *** Settlements and traces *)

Lemma Faithful_rejected {A} cmd e :
  Faithful (A := A) [{| command := cmd; outcome := Throw e |}] (Throw e).
Proof. exists [], cmd. by split. Qed.

Lemma Faithful_app {A B} t1 t2 (a : A) (r : Res B) :
  Faithful t1 (Ok a) → Faithful t2 r → Faithful (t1 ++ t2) r.
Proof.
  simpl. intros H1 H2. destruct r as [b|e]; simpl in *.
  - by apply Forall_app.
  - destruct H2 as (pre & cmd & -> & Hpre).
    exists (t1 ++ pre), cmd. split; [by rewrite app_assoc|].
    by apply Forall_app.
Qed.

Lemma Settles_app t1 t2 fe :
  Settles t1 None → Settles t2 fe → Settles (t1 ++ t2) fe.
Proof.
  intros H1 H2. remember None as none eqn:Hn.
  induction H1 as [|s t fe' Hs _ IH|s s' t fe' e Hm Ho He Hc _ IH|s e Ho];
    subst; try done.
  - apply Settles_resolved; auto.
  - change ((s :: s' :: t) ++ t2) with (s :: s' :: (t ++ t2)).
    eapply Settles_retried; eauto.
Qed.

Lemma Settles_resolved_all t :
  Forall (λ s, resolved s = true) t → Settles t None.
Proof. induction 1; by constructor. Qed.

Lemma Faithful_Settles {A} t (r : Res A) : Faithful t r → Settles t (rejection r).
Proof.
  destruct r as [a|e]; simpl.
  - apply Settles_resolved_all.
  - intros (pre & cmd & -> & Hpre).
    apply Settles_app; [by apply Settles_resolved_all|].
    by apply Settles_rejected.
Qed.

(** What [Settles] says of a rejected request, by its place. *)
Lemma Settles_lookup t fe i sent e :
  Settles t fe →
  t !! i = Some sent →
  outcome sent = Throw e →
  (fe = Some e ∧ S i = length t)
  ∨ (isMutation (command sent) = true
     ∧ isThrottlingError e = true
     ∧ ∃ next, t !! S i = Some next ∧ command next = command sent).
Proof.
  intros Hs. revert i.
  induction Hs as [|s t fe Hr _ IH|s s' t fe e' Hm Ho He Hc _ IH|s e' Ho];
    intros i Hi Hout.
  - done.
  - destruct i as [|i]; simpl in Hi.
    + injection Hi as ->. unfold resolved in Hr. by rewrite Hout in Hr.
    + destruct (IH i Hi Hout) as [[-> Hlen]|(? & ? & next & ? & ?)].
      * left. split; [done|]. simpl. lia.
      * right. split_and!; [done..|]. by exists next.
  - destruct i as [|i]; simpl in Hi.
    + injection Hi as ->. rewrite Ho in Hout. injection Hout as ->.
      right. split_and!; [done..|]. by exists s'.
    + destruct (IH i Hi Hout) as [[-> Hlen]|(? & ? & next & ? & ?)].
      * left. split; [done|]. simpl in *. lia.
      * right. split_and!; [done..|]. by exists next.
  - destruct i as [|i]; simpl in Hi; [|done].
    injection Hi as ->. rewrite Ho in Hout. injection Hout as ->. by left.
Qed.

Lemma Settles_last t e :
  Settles t (Some e) → ∃ sent, last t = Some sent ∧ outcome sent = Throw e.
Proof.
  intros Hs. remember (Some e) as fe eqn:Hfe.
  induction Hs as [|s t fe Hr _ IH|s s' t fe e' Hm Ho He Hc _ IH|s e' Ho];
    subst; try done.
  - destruct (IH eq_refl) as (sent & Hl & Hout). exists sent. split; [|done].
    rewrite last_cons. by rewrite Hl.
  - destruct (IH eq_refl) as (sent & Hl & Hout). exists sent. split; [|done].
    rewrite last_cons. by rewrite Hl.
  - injection Hfe as ->. by exists s.
Qed.

(** *** The back-off helper *)

(** A run of the helper on a request: attempts rejected as rate-limit
    failures, then the attempt that settles it. *)
Lemma backOff_inv cmd n w w' t (r : Res CommandOutput) :
  throttlingBackOff n (awaitSend cmd) w = Some (w', t, r) →
  ∃ pre, t = pre ++ [{| command := cmd; outcome := r |}]
         ∧ Forall (throttled cmd) pre
         ∧ (length pre ≤ n)%nat.
Proof.
  revert w t. induction n as [|n IH]; intros w t; cbn [throttlingBackOff];
    unfold awaitSend at 1; destruct (send cmd w) as [w1 [a|e]] eqn:Hs.
  - intros [= <- <- <-]. by exists [].
  - destruct (isThrottlingError e); intros [= <- <- <-]; by exists [].
  - intros [= <- <- <-]. exists []. split_and!; [done..|simpl; lia].
  - destruct (isThrottlingError e) eqn:He.
    + destruct (throttlingBackOff n (awaitSend cmd) w1) as [[[w2 t2] r2]|] eqn:Hrec;
        [|done].
      intros [= <- <- <-]. apply IH in Hrec as (pre & -> & Hpre & Hlen).
      exists ({| command := cmd; outcome := Throw e |} :: pre).
      split_and!; [done| |simpl; lia].
      constructor; [|done]. split; [done|]. by exists e.
    + intros [= <- <- <-]. exists []. split_and!; [done..|simpl; lia].
Qed.

(** The helper always settles. *)
Lemma backOff_settles cmd n w :
  ∃ w' t r, throttlingBackOff n (awaitSend cmd) w = Some (w', t, r).
Proof.
  revert w. induction n as [|n IH]; intros w; cbn [throttlingBackOff];
    unfold awaitSend at 1; destruct (send cmd w) as [w1 [a|e]];
    try (by eexists _, _, _).
  - destruct (isThrottlingError e); by eexists _, _, _.
  - destruct (isThrottlingError e); [|by eexists _, _, _].
    destruct (IH w1) as (w2 & t2 & r2 & ->). by eexists _, _, _.
Qed.

(** A request that is resolved at the first attempt is sent once. *)
Lemma backOff_first cmd n w w' out :
  send cmd w = (w', Ok out) →
  throttlingBackOff n (awaitSend cmd) w
  = Some (w', [{| command := cmd; outcome := Ok out |}], Ok out).
Proof. intros Hs. destruct n; cbn; unfold awaitSend; by rewrite Hs. Qed.

(** What the trace of a run of the helper on an attach or detach request
    shows. *)
Lemma backOff_trace cmd n w w' t (r : Res CommandOutput) :
  isMutation cmd = true →
  throttlingBackOff n (awaitSend cmd) w = Some (w', t, r) →
  Forall (λ s, command s = cmd) t
  ∧ Settles t (rejection r)
  ∧ appliedMutations t = match r with Ok _ => [cmd] | Throw _ => [] end
  ∧ (length t ≤ S n)%nat
  ∧ last t = Some {| command := cmd; outcome := r |}.
Proof.
  intros Hm (pre & -> & Hpre & Hlen)%backOff_inv. split_and!.
  - apply Forall_app. split; [|by repeat constructor].
    eapply Forall_impl; [exact Hpre|]. by intros s [? _].
  - clear Hlen. induction Hpre as [|s pre (Hc & e & Ho & He) Hpre IH].
    + destruct r as [a|e]; simpl.
      * by repeat constructor.
      * by apply Settles_rejected.
    + destruct pre as [|s' pre].
      * eapply Settles_retried; eauto; by rewrite Hc.
      * simpl in *. eapply Settles_retried; eauto; [by rewrite Hc|].
        apply Forall_cons in Hpre as [[-> _] _]. done.
  - rewrite appliedMutations_app.
    replace (appliedMutations pre) with (@nil Command).
    + unfold appliedMutations. cbn. rewrite Hm. by destruct r.
    + clear Hlen. induction Hpre as [|s pre (Hc & e & Ho & He) _ IH]; [done|].
      unfold appliedMutations in *. cbn. unfold resolved. rewrite Ho.
      by rewrite andb_false_r.
  - rewrite length_app. simpl. lia.
  - by rewrite last_snoc.
Qed.

(** *** The loops over the entries of a page *)

(** A request through the back-off helper whose value is dropped. *)
Lemma awaitBackOff_then {R} cmd (v : R) w :
  (awaitBackOff cmd ≫= λ _, ret v) w
  = match awaitBackOff cmd w with
    | Some (w', t, r) =>
        Some (w', t, match r with Ok _ => Ok v | Throw e => Throw e end)
    | None => None
    end.
Proof.
  rewrite bind_unfold. unfold bind, ret.
  destruct (awaitBackOff cmd w) as [[[w' t] [a|e]]|]; [|done..].
  by rewrite app_nil_r.
Qed.

(** A loop whose body only tests and returns issues no request. *)
Lemma forOf_find {A R} (sel : A → bool) (v : R) (body : A → M (option R)) xs w :
  (∀ x, body x = if sel x then ret (Some v) else ret None) →
  forOf xs body w = Some (w, [], Ok (if existsb sel xs then Some v else None)).
Proof.
  intros Hb. induction xs as [|x rest IH]; [done|].
  cbn [forOf existsb]. rewrite Hb. destruct (sel x).
  - done.
  - rewrite bind_unfold. unfold bind, ret at 1. cbn. by rewrite IH.
Qed.

(** The loop of the delete branch over entries of which none is
    selected issues no request. *)
Lemma forOf_detach_miss {A R} (sel : A → bool) cmd (body : A → M (option R)) xs w :
  (∀ x, body x = if sel x then awaitBackOff cmd ≫= (λ _, ret None) else ret None) →
  existsb sel xs = false →
  forOf xs body w = Some (w, [], Ok None).
Proof.
  intros Hb. induction xs as [|x rest IH]; [done|].
  cbn [forOf existsb]. intros [Hx Hrest]%orb_false_elim.
  rewrite Hb, Hx. rewrite bind_unfold. unfold bind, ret at 1. cbn.
  by rewrite IH.
Qed.

(** The loop of the delete branch: for each selected entry one request
    through the back-off helper, and nothing ends the loop before the
    last entry but a rejection. *)
Lemma forOf_detach_inv {A R} (sel : A → bool) cmd (body : A → M (option R))
    xs w w' t (r : Res (option R)) :
  isMutation cmd = true →
  (∀ x, body x = if sel x then awaitBackOff cmd ≫= (λ _, ret None) else ret None) →
  forOf xs body w = Some (w', t, r) →
  Forall (λ s, command s = cmd) t
  ∧ Settles t (rejection r)
  ∧ match r with
    | Ok v => v = None
              ∧ appliedMutations t = replicate (length (List.filter sel xs)) cmd
    | Throw _ =>
        (length (appliedMutations t) ≤ length (List.filter sel xs))%nat
    end
  ∧ (length t ≤ length (List.filter sel xs) * S maxRetries)%nat.
Proof.
  intros Hmut Hb. revert w t. induction xs as [|x rest IH]; intros w t.
  - intros [= <- <- <-]. split_and!; by constructor.
  - cbn [forOf List.filter]. rewrite Hb. destruct (sel x).
    + intros [(e & Hm & ->)|(w1 & t1 & a & t2 & Hm & Hk & ->)]%bind_inv;
        rewrite awaitBackOff_then in Hm;
        destruct (awaitBackOff cmd w) as [[[w0 t0] ro]|] eqn:Hbo; try done;
        apply (backOff_trace cmd) in Hbo as (Hc0 & Hs0 & Ha0 & Hl0 & _);
        try done.
      * destruct ro as [o|e0]; [done|]. injection Hm as <- <- <-.
        split_and!; [done|done|rewrite Ha0; simpl; lia|simpl; lia].
      * destruct ro as [o|e0]; [|done]. injection Hm as <- <- <-.
        apply IH in Hk as (Hc & Hs & Hn & Hl). split_and!.
        -- by apply Forall_app.
        -- by apply Settles_app.
        -- rewrite appliedMutations_app, Ha0.
           destruct r as [v|e]; simpl in *.
           ++ destruct Hn as [-> ->]. done.
           ++ lia.
        -- rewrite length_app. simpl. lia.
    + intros [(e & Hm & ->)|(w1 & t1 & a & t2 & Hm & Hk & ->)]%bind_inv;
        unfold ret in Hm; simplify_eq.
      by apply IH in Hk.
Qed.

(** *** The loop over the pages of the listing *)

Lemma awaitSend_eq cmd w w' (r : Res CommandOutput) :
  send cmd w = (w', r) →
  awaitSend cmd w = Some (w', [{| command := cmd; outcome := r |}], r).
Proof. unfold awaitSend. by intros ->. Qed.

(** When every page of the listing arrives and the body passes over
    each of them, the loop requests them all and falls through. *)
Lemma paginate_skip {R} fuel F T token (body : CommandOutput → M (option R))
    w pages w' :
  ListsAll F T token w pages w' →
  (∀ page w0, page ∈ pages → body page w0 = Some (w0, [], Ok None)) →
  (length pages ≤ fuel)%nat →
  paginateListPoliciesForTarget fuel F T token body w
  = Some (w', listTrace F T token pages, Ok None).
Proof.
  intros HL. revert fuel.
  induction HL as [token w w' page Hs Hn|token w w1 w' page pages Hs Hn HL IH];
    intros fuel Hb Hf; (destruct fuel as [|fuel]; [simpl in Hf; lia|]);
    cbn [paginateListPoliciesForTarget listTrace];
    rewrite (bind_ok _ _ _ _ _ _ (awaitSend_eq _ _ _ _ Hs));
    rewrite (bind_ok _ _ _ _ _ _ (Hb page _ ltac:(set_solver)));
    rewrite Hn.
  - done.
  - rewrite IH; [done| |simpl in Hf; lia].
    intros p w0 Hp. apply Hb. set_solver.
Qed.

(** When the listing arrives up to a page that lists the policy and the
    body only searches, the loop stops at that page. *)
Lemma paginate_hit {R} fuel F T token policyId (v : R)
    (body : CommandOutput → M (option R)) w pages w' :
  ListsUntil F T policyId token w pages w' →
  (∀ page w0, body page w0
     = Some (w0, [], Ok (if listed policyId page then Some v else None))) →
  (length pages ≤ fuel)%nat →
  paginateListPoliciesForTarget fuel F T token body w
  = Some (w', listTrace F T token pages, Ok (Some v)).
Proof.
  intros HL Hb. revert fuel.
  induction HL as [token w w' page Hs Hl|token w w1 w' page pages Hs Hl Hn HL IH];
    intros fuel Hf; (destruct fuel as [|fuel]; [simpl in Hf; lia|]);
    cbn [paginateListPoliciesForTarget listTrace];
    rewrite (bind_ok _ _ _ _ _ _ (awaitSend_eq _ _ _ _ Hs));
    rewrite (bind_ok _ _ _ _ _ _ (Hb page _));
    rewrite Hl.
  - done.
  - rewrite Hn, IH; [done|simpl in Hf; lia].
Qed.

(** Any finished run of the loop with a body that only searches: it
    issued list requests only, and it returned from inside the loop
    exactly when the page received last was the first to satisfy the
    test. *)
Lemma paginate_search_inv {R} fuel F T token (stop : CommandOutput → bool)
    (v : R) (body : CommandOutput → M (option R)) w w' t r :
  (∀ page w0, body page w0
     = Some (w0, [], Ok (if stop page then Some v else None))) →
  paginateListPoliciesForTarget fuel F T token body w = Some (w', t, r) →
  Forall (λ s, isList (command s) = true) t
  ∧ Faithful t r
  ∧ match r with
    | Ok (Some v') =>
        v' = v ∧ ∃ pre cmd page,
          t = pre ++ [{| command := cmd; outcome := Ok page |}]
          ∧ stop page = true
          ∧ Forall (λ p, stop p = false) (pagesOf pre)
    | _ => Forall (λ p, stop p = false) (pagesOf t)
    end.
Proof.
  intros Hb. revert token w t.
  induction fuel as [|fuel IH]; intros token w t; [done|].
  cbn [paginateListPoliciesForTarget].
  intros [(e & Hm & ->)|(w1 & t1 & page & t2 & Hm & Hk & ->)]%bind_inv;
    apply awaitSend_inv in Hm as [Hs ->].
  { split_and!; [by repeat constructor|apply Faithful_rejected|done]. }
  rewrite (bind_ok _ _ _ _ _ _ (Hb page w1)) in Hk.
  destruct (stop page) eqn:Hstop.
  - unfold ret in Hk. simplify_eq. split_and!; [by repeat constructor..|].
    exists [], (ListPoliciesForTargetCommand F T token), page.
    by split_and!.
  - destruct (JS.truthy (NextToken page)).
    + destruct (paginateListPoliciesForTarget fuel F T (NextToken page) body w1)
        as [[[w2 t3] r3]|] eqn:Hrec; [|done].
      injection Hk as <- <- <-.
      apply IH in Hrec as (Hl & Hf & Hr).
      assert (Hp : ∀ l, pagesOf ([{| command := ListPoliciesForTargetCommand F T token;
                                     outcome := Ok page |}] ++ l) = page :: pagesOf l)
        by done.
      split_and!.
      * by constructor.
      * eapply (Faithful_app [_] t3 tt); [|done]. by repeat constructor.
      * destruct r3 as [[v'|]|e]; cbn beta iota in Hr |- *.
        -- destruct Hr as (-> & pre & cmd & pg & -> & Hpg & Hpre). split; [done|].
           exists ([{| command := ListPoliciesForTargetCommand F T token;
                       outcome := Ok page |}] ++ pre), cmd, pg.
           split_and!; [done..|]. rewrite Hp. by constructor.
        -- rewrite Hp. by constructor.
        -- rewrite Hp. by constructor.
    + injection Hk as <- <- <-. split_and!; by repeat constructor.
Qed.

Lemma detach_only_calls cmd t :
  isDetach cmd = true →
  Forall (λ s, command s = cmd) t →
  detachCalls t = replicate (length t) cmd ∧ pagesOf t = [].
Proof.
  intros Hd Ht. split; [by apply calls_all|].
  apply pagesOf_none. eapply Forall_impl; [done|].
  intros s ->. by destruct cmd.
Qed.

Lemma occurrences_cons policyId page pages :
  occurrences policyId (page :: pages)
  = length (matching policyId page) + occurrences policyId pages.
Proof. unfold occurrences. by rewrite fmap_cons, concat_cons, length_app. Qed.

(** Any finished run of the loop of the delete branch: it issued list
    requests and the detach request only; when it fell through, it had a
    detach carried out once per listed entry with the policy's id and had
    reached the end of the listing. *)
Lemma paginate_detach_inv {R} fuel F T token policyId cmd
    (body : CommandOutput → M (option R)) w w' t (r : Res (option R)) :
  isDetach cmd = true →
  (∀ page, body page
     = forOf (default [] (Policies page))
         (λ x, if JS.strictEq (Id x) policyId
               then awaitBackOff cmd ≫= (λ _, ret None) else ret None)) →
  paginateListPoliciesForTarget fuel F T token body w = Some (w', t, r) →
  Forall (λ s, isList (command s) = true ∨ command s = cmd) t
  ∧ Settles t (rejection r)
  ∧ match r with
    | Ok v =>
        v = None
        ∧ appliedMutations t = replicate (occurrences policyId (pagesOf t)) cmd
        ∧ ∃ page, last (pagesOf t) = Some page
                  ∧ JS.truthy (NextToken page) = false
    | Throw _ =>
        (length (appliedMutations t) ≤ occurrences policyId (pagesOf t))%nat
    end
  ∧ (length (detachCalls t)
     ≤ occurrences policyId (pagesOf t) * S maxRetries)%nat.
Proof.
  intros Hd Hb.
  assert (Hmut : isMutation cmd = true) by (by destruct cmd).
  revert token w t.
  induction fuel as [|fuel IH]; intros token w t; [done|].
  cbn [paginateListPoliciesForTarget].
  intros [(e & Hm & ->)|(w1 & t1 & page & t2 & Hm & Hk & ->)]%bind_inv;
    apply awaitSend_inv in Hm as [Hs ->].
  { split_and!; [repeat constructor; by left|by apply Settles_rejected|..];
      cbn; lia. }
  set (sent := {| command := ListPoliciesForTargetCommand F T token;
                  outcome := Ok page |}) in *.
  assert (Hpg : ∀ l, pagesOf ([sent] ++ l) = page :: pagesOf l) by done.
  assert (Hdc : ∀ l, detachCalls ([sent] ++ l) = detachCalls l) by done.
  assert (Ham : ∀ l, appliedMutations ([sent] ++ l) = appliedMutations l) by done.
  assert (Hfs : Settles [sent] None) by (by repeat constructor).
  assert (Hsl : isList (command sent) = true) by done.
  clearbody sent.
  apply bind_inv in Hk
    as [(e & Hm & ->)|(w2 & t3 & a & t4 & Hm & Hk & ->)];
    rewrite Hb in Hm;
    pose proof (forOf_detach_inv (λ x, JS.strictEq (Id x) policyId) cmd
                  _ _ _ _ _ _ Hmut (λ _, eq_refl) Hm) as (Hc & Hf & Hn & Hlen);
    cbn beta iota in Hn;
    change (List.filter (λ x, JS.strictEq (Id x) policyId)
              (default [] (Policies page)))
      with (matching policyId page) in *.
  { destruct (detach_only_calls cmd t2 Hd Hc) as [Hcalls Hpages].
    rewrite Hdc, Hpg, Ham, Hcalls, Hpages, length_replicate, occurrences_cons.
    split_and!.
    - constructor; [by left|]. eapply Forall_impl; [done|]. by right.
    - by apply Settles_app.
    - unfold occurrences. cbn. lia.
    - unfold occurrences. cbn. lia. }
  destruct Hn as [-> Hn].
  destruct (detach_only_calls cmd t3 Hd Hc) as [Hcalls Hpages].
  assert (Hc' : Forall (λ s, isList (command s) = true ∨ command s = cmd) t3).
  { eapply Forall_impl; [exact Hc|]. intros s ?. by right. }
  destruct (JS.truthy (NextToken page)) eqn:Hnext.
  - apply IH in Hk as (Hl & Hf4 & Hr & Hlen4).
    rewrite Hdc, Hpg, Ham, pagesOf_app, Hpages, occurrences_cons.
    rewrite appliedMutations_app, Hn. cbn [app].
    unfold detachCalls in *. rewrite calls_app, Hcalls.
    split_and!.
    + constructor; [by left|]. by apply Forall_app.
    + apply (Settles_app [sent]); [done|]. by apply Settles_app.
    + destruct r as [v|e].
      * destruct Hr as (-> & -> & pg & Hlast & Htok).
        split_and!; [done|by rewrite replicate_add|].
        exists pg. split; [|done]. rewrite last_cons. by rewrite Hlast.
      * rewrite ?length_app, ?length_replicate. lia.
    + rewrite Nat.mul_add_distr_r, length_app, length_replicate. lia.
  - injection Hk as <- <- <-. rewrite app_nil_r.
    rewrite Hdc, Hpg, Ham, Hcalls, Hpages, Hn, length_replicate, occurrences_cons.
    split_and!.
    + constructor; [by left|done].
    + by apply Settles_app.
    + done.
    + unfold occurrences. cbn. by rewrite Nat.add_0_r.
    + by exists page.
    + unfold occurrences. cbn. lia.
Qed.

(** *** The bound on the pages

    A run that finishes within a bound on the pages requested is the run
    under every larger bound: the bound decides only whether a listing
    that goes on is followed to its end. *)

Lemma bind_mono {A B} (m1 m2 : M A) (k1 k2 : A → M B) w x :
  (∀ w0 y, m1 w0 = Some y → m2 w0 = Some y) →
  (∀ a w0 y, k1 a w0 = Some y → k2 a w0 = Some y) →
  (m1 ≫= k1) w = Some x → (m2 ≫= k2) w = Some x.
Proof.
  intros Hm Hk. rewrite !bind_unfold. unfold bind.
  destruct (m1 w) as [[[w1 t1] [a|e]]|] eqn:H1; [| |done];
    rewrite (Hm _ _ H1); [|done].
  destruct (k1 a w1) as [y|] eqn:H2; [|done]. by rewrite (Hk _ _ _ H2).
Qed.

Lemma paginate_fuel_mono {R} n m F T token (body : CommandOutput → M (option R)) w x :
  (n ≤ m)%nat →
  paginateListPoliciesForTarget n F T token body w = Some x →
  paginateListPoliciesForTarget m F T token body w = Some x.
Proof.
  revert m token w x. induction n as [|n IH]; intros m token w x Hle; [done|].
  destruct m as [|m]; [lia|].
  cbn [paginateListPoliciesForTarget].
  apply bind_mono; [done|]. intros page w1 y.
  apply bind_mono; [done|]. intros [v|] w2 z; [done|].
  destruct (JS.truthy (NextToken page)); [|done].
  apply IH. lia.
Qed.

Lemma handler_fuel_mono n m event w x :
  (n ≤ m)%nat → handler n event w = Some x → handler m event w = Some x.
Proof.
  intros Hle. unfold handler.
  destruct (Event.RequestType event); (apply bind_mono; [|done]).
  1,2: intros w0 y; by apply paginate_fuel_mono.
  destruct (negb _); [|done]. intros w0 y. by apply paginate_fuel_mono.
Qed.

(** *** Runs of the handler *)

(** The body of the loop of the create and update branch only
    searches the page. *)
Lemma search_body policyId targetId page w0 :
  forOf (default [] (Policies page))
    (λ p, if JS.strictEq (Id p) policyId
          then ret (Some (attached policyId targetId)) else ret None) w0
  = Some (w0, [],
          Ok (if listed policyId page
              then Some (attached policyId targetId) else None)).
Proof. by apply (forOf_find (λ p, JS.strictEq (Id p) policyId)). Qed.

(** The body of the loop of the delete branch passes over a page that
    does not list the policy. *)
Lemma detach_body_miss policyId targetId page w0 :
  listed policyId page = false →
  forOf (R := Response.t) (default [] (Policies page))
    (λ p, if JS.strictEq (Id p) policyId
          then awaitBackOff (DetachPolicyCommand policyId targetId)
               ≫= (λ _, ret None)
          else ret None) w0
  = Some (w0, [], Ok None).
Proof.
  intros Hl.
  by apply (forOf_detach_miss (λ p, JS.strictEq (Id p) policyId)
              (DetachPolicyCommand policyId targetId)).
Qed.

(** Attempts of one attach or detach request deliver no page. *)
Lemma attempts_no_pages cmd t :
  isMutation cmd = true → Forall (λ s, command s = cmd) t → pagesOf t = [].
Proof.
  intros Hm Ht. apply pagesOf_none. eapply Forall_impl; [done|].
  intros s ->. by destruct cmd.
Qed.

(** Among resolved requests, the detach requests are those carried out. *)
Lemma resolved_detach_calls cmd t :
  isDetach cmd = true →
  Forall (λ s, isList (command s) = true ∨ command s = cmd) t →
  Forall (λ s, resolved s = true) t →
  detachCalls t = appliedMutations t.
Proof.
  intros Hd Ht Hr. unfold detachCalls, calls, appliedMutations.
  induction Ht as [|s t Hs _ IH]; [done|].
  apply Forall_cons in Hr as [Hs' Hr]. specialize (IH Hr).
  rewrite fmap_cons. cbn [List.filter]. rewrite Hs', andb_true_r.
  destruct Hs as [Hs|Hs].
  - by destruct (command s).
  - rewrite Hs. unfold isMutation. rewrite Hd, orb_true_r.
    rewrite fmap_cons, Hs. by f_equal.
Qed.

(** Every finished run of the create and update branch is of one of
    three kinds: the search stopped at a page listing the policy; the
    listing ended without such a page and the attach request went
    through the back-off helper; or a list request was rejected. *)
Lemma create_update_run_inv fuel event w w' t r :
  Event.RequestType event ≠ Delete →
  let policyId := Event.ResourceProperties event !! "policyId" in
  let targetId := Event.ResourceProperties event !! "targetId" in
  handler fuel event w = Some (w', t, r) →
  Settles t (rejection r)
  ∧ ((r = Ok (Some (attached policyId targetId))
      ∧ Forall (λ s, isList (command s) = true) t
      ∧ Forall (λ s, resolved s = true) t
      ∧ ∃ pre cmd page,
          t = pre ++ [{| command := cmd; outcome := Ok page |}]
          ∧ listed policyId page = true
          ∧ Forall (λ p, listed policyId p = false) (pagesOf pre))
     ∨ (∃ tl w1 sends ro,
          t = tl ++ sends
          ∧ throttlingBackOff maxRetries
              (awaitSend (AttachPolicyCommand policyId targetId)) w1
            = Some (w', sends, ro)
          ∧ Forall (λ s, isList (command s) = true) tl
          ∧ Forall (λ s, resolved s = true) tl
          ∧ Forall (λ p, listed policyId p = false) (pagesOf tl)
          ∧ r = match ro with
                | Ok _ => Ok (Some (attached policyId targetId))
                | Throw e => Throw e
                end)
     ∨ (∃ e, r = Throw e
             ∧ Forall (λ s, isList (command s) = true) t
             ∧ Forall (λ p, listed policyId p = false) (pagesOf t))).
Proof.
  intros Hrt policyId targetId Hrun.
  assert (Hrun' :
    (paginateListPoliciesForTarget fuel
       (Event.ResourceProperties event !! "type") targetId None
       (λ page, forOf (default [] (Policies page))
          (λ p, if JS.strictEq (Id p) policyId
                then ret (Some (attached policyId targetId)) else ret None))
     ≫= (λ found,
           match found with
           | Some result => ret (Some result)
           | None =>
               awaitBackOff (AttachPolicyCommand policyId targetId)
               ≫= (λ _, ret (Some (attached policyId targetId)))
           end)) w = Some (w', t, r)).
  { unfold handler in Hrun. by destruct (Event.RequestType event). }
  clear Hrun.
  apply bind_inv in Hrun'
    as [(e & Hm & ->)|(w1 & t1 & found & t2 & Hm & Hk & ->)];
    apply (paginate_search_inv _ _ _ _ (listed policyId)
             (attached policyId targetId)) in Hm as (Hl & Hf & Hr);
    try (intros; apply search_body).
  { split; [by apply (Faithful_Settles _ (Throw e))|].
    right; right. by exists e. }
  destruct found as [result|].
  - destruct Hr as (-> & pre & cmd & page & -> & Hpg & Hpre).
    injection Hk as <- <- <-. rewrite app_nil_r.
    split; [by apply (Faithful_Settles _ (Ok (Some (attached policyId targetId))))|].
    left. split_and!; [done..|]. by exists pre, cmd, page.
  - rewrite awaitBackOff_then in Hk. unfold awaitBackOff in Hk.
    destruct (throttlingBackOff maxRetries
                (awaitSend (AttachPolicyCommand policyId targetId)) w1)
      as [[[w2 sends] ro]|] eqn:Hbo; [|done].
    injection Hk as <- <- <-. split.
    + apply Settles_app; [by apply Settles_resolved_all|].
      apply backOff_trace in Hbo as (_ & Hs & _); [|done]. by destruct ro.
    + right; left. by exists t1, w1, sends, ro.
Qed.

(** Every finished run of the delete branch for a policy other than
    the protected one. *)
Lemma delete_run_inv fuel event w w' t r :
  Event.RequestType event = Delete →
  let policyId := Event.ResourceProperties event !! "policyId" in
  let targetId := Event.ResourceProperties event !! "targetId" in
  policyId ≠ Some "p-FullAWSAccess" →
  handler fuel event w = Some (w', t, r) →
  Forall (λ s, isList (command s) = true
               ∨ command s = DetachPolicyCommand policyId targetId) t
  ∧ Settles t (rejection r)
  ∧ match r with
    | Ok v =>
        v = Some (detached event)
        ∧ appliedMutations t
          = replicate (occurrences policyId (pagesOf t))
              (DetachPolicyCommand policyId targetId)
        ∧ ∃ page, last (pagesOf t) = Some page
                  ∧ JS.truthy (NextToken page) = false
    | Throw _ =>
        (length (appliedMutations t) ≤ occurrences policyId (pagesOf t))%nat
    end
  ∧ (length (detachCalls t)
     ≤ occurrences policyId (pagesOf t) * S maxRetries)%nat.
Proof.
  intros Hrt policyId targetId Hp Hrun.
  unfold handler in Hrun. rewrite Hrt in Hrun.
  fold policyId targetId in Hrun.
  unfold JS.strictEq at 1 in Hrun. rewrite bool_decide_eq_false_2 in Hrun by done.
  cbn [negb] in Hrun.
  apply bind_inv in Hrun
    as [(e & Hm & ->)|(w1 & t1 & a & t2 & Hm & Hk & ->)];
    apply (paginate_detach_inv _ _ _ _ policyId
             (DetachPolicyCommand policyId targetId)) in Hm
      as (Hl & Hf & Hr & Hlen); try done.
  injection Hk as <- <- <-. rewrite app_nil_r.
  destruct Hr as (-> & Hcount & Hlast). by split_and!.
Qed.

Lemma lists_only t :
  Forall (λ s, isList (command s) = true) t →
  attachCalls t = [] ∧ detachCalls t = [] ∧ mutationCalls t = []
  ∧ appliedMutations t = [].
Proof.
  intros Ht.
  assert (Hk : ∀ kind, (∀ c, isList c = true → kind c = false) → calls kind t = []).
  { intros kind Hkind. apply calls_none. eapply Forall_impl; [exact Ht|].
    intros s Hs. by apply Hkind. }
  split_and!; try (apply Hk; by intros []).
  unfold appliedMutations.
  replace (List.filter (λ s, isMutation (command s) && resolved s) t)
    with (@nil Sent); [done|].
  clear Hk. induction Ht as [|s t Hs _ IH]; [done|].
  cbn [List.filter]. destruct (command s); [exact IH|done..].
Qed.

Lemma handler_create_update fuel event w :
  Event.RequestType event ≠ Delete →
  let policyId := Event.ResourceProperties event !! "policyId" in
  let targetId := Event.ResourceProperties event !! "targetId" in
  handler fuel event w
  = (paginateListPoliciesForTarget fuel
       (Event.ResourceProperties event !! "type") targetId None
       (λ page, forOf (default [] (Policies page))
          (λ p, if JS.strictEq (Id p) policyId
                then ret (Some (attached policyId targetId)) else ret None))
     ≫= (λ found,
           match found with
           | Some result => ret (Some result)
           | None =>
               awaitBackOff (AttachPolicyCommand policyId targetId)
               ≫= (λ _, ret (Some (attached policyId targetId)))
           end)) w.
Proof. intros Hrt. unfold handler. by destruct (Event.RequestType event). Qed.

(** The create and update branch, when the whole listing arrives
    without the policy and the attach request is resolved, at the first
    attempt or at a later one. *)
Lemma create_update_attaches fuel event w pages w1 w2 sends out :
  Event.RequestType event ≠ Delete →
  let policyId := Event.ResourceProperties event !! "policyId" in
  let targetId := Event.ResourceProperties event !! "targetId" in
  let type := Event.ResourceProperties event !! "type" in
  ListsAll type targetId None w pages w1 →
  Forall (λ page, listed policyId page = false) pages →
  throttlingBackOff maxRetries
    (awaitSend (AttachPolicyCommand policyId targetId)) w1
    = Some (w2, sends, Ok out) →
  (length pages ≤ fuel)%nat →
  handler fuel event w
  = Some (w2, listTrace type targetId None pages ++ sends,
          Ok (Some (attached policyId targetId))).
Proof.
  intros Hrt policyId targetId type HL Hno Hat Hf.
  rewrite handler_create_update by done.
  subst policyId targetId type. cbv zeta.
  erewrite bind_ok; last first.
  { apply (paginate_skip _ _ _ _ _ _ pages w1); [exact HL| |exact Hf].
    intros page w0 Hin. rewrite search_body.
    rewrite Forall_forall in Hno. by rewrite (Hno page Hin). }
  cbn beta iota. rewrite awaitBackOff_then. unfold awaitBackOff. by rewrite Hat.
Qed.

(** What the trace of such a run shows. *)
Lemma attach_run_calls F T policyId targetId pages w1 w2 sends out :
  throttlingBackOff maxRetries
    (awaitSend (AttachPolicyCommand policyId targetId)) w1
    = Some (w2, sends, Ok out) →
  appliedMutations (listTrace F T None pages ++ sends)
    = [AttachPolicyCommand policyId targetId]
  ∧ attachCalls (listTrace F T None pages ++ sends)
    = replicate (length sends) (AttachPolicyCommand policyId targetId)
  ∧ detachCalls (listTrace F T None pages ++ sends) = []
  ∧ (1 ≤ length sends ≤ S maxRetries)%nat
  ∧ (Forall (λ s, resolved s = true) sends →
     sends = [{| command := AttachPolicyCommand policyId targetId;
                 outcome := Ok out |}])
  ∧ pagesOf (listTrace F T None pages ++ sends) = pages.
Proof.
  intros Hbo.
  pose proof (backOff_inv _ _ _ _ _ _ Hbo) as (pre & Hsends & Hpre & Hlen).
  apply backOff_trace in Hbo as (Hc & _ & Ha & Hn & _); [|done].
  pose proof (lists_only _ (listTrace_lists F T None pages)) as (Hla & Hld & _ & Hlm).
  unfold attachCalls, detachCalls in *.
  rewrite appliedMutations_app, !calls_app, pagesOf_app, Hla, Hld, Hlm, Ha.
  rewrite pagesOf_listTrace.
  rewrite (attempts_no_pages (AttachPolicyCommand policyId targetId) _ eq_refl Hc).
  rewrite app_nil_r.
  rewrite (calls_all isAttach (AttachPolicyCommand policyId targetId) _ eq_refl Hc).
  rewrite (calls_none isDetach sends)
    by (eapply Forall_impl; [exact Hc|]; by intros s ->).
  split_and!; try done.
  - subst sends. rewrite length_app. simpl. lia.
  - subst sends. intros [Hres _]%Forall_app.
    destruct Hpre as [|s pre (_ & e & Ho & _) _]; [done|].
    apply Forall_cons in Hres as [Hs _]. unfold resolved in Hs.
    by rewrite Ho in Hs.
Qed.

(** The create and update branch, when the listing arrives up to a
    page that lists the policy. *)
Lemma create_update_finds fuel event w pages w1 :
  Event.RequestType event ≠ Delete →
  let policyId := Event.ResourceProperties event !! "policyId" in
  let targetId := Event.ResourceProperties event !! "targetId" in
  let type := Event.ResourceProperties event !! "type" in
  ListsUntil type targetId policyId None w pages w1 →
  (length pages ≤ fuel)%nat →
  handler fuel event w
  = Some (w1, listTrace type targetId None pages,
          Ok (Some (attached policyId targetId))).
Proof.
  intros Hrt policyId targetId type HL Hf.
  rewrite handler_create_update by done.
  subst policyId targetId type. cbv zeta.
  erewrite bind_ok; last first.
  { eapply paginate_hit; [exact HL| |exact Hf].
    intros page w0. apply search_body. }
  unfold ret. by rewrite app_nil_r.
Qed.

(** The delete branch for the protected policy. *)
Lemma delete_protected_run fuel event w :
  Event.RequestType event = Delete →
  Event.ResourceProperties event !! "policyId" = Some "p-FullAWSAccess" →
  handler fuel event w = Some (w, [], Ok (Some (detached event))).
Proof. intros Hrt Hp. unfold handler. by rewrite Hrt, Hp. Qed.

(** The loop over the entries of a page on Delete, when each detach
    request is resolved in the end. *)
Lemma forOf_detaches {A R} (sel : A → bool) policyId targetId
    (body : A → M (option R)) xs w t w' :
  (∀ x, body x = if sel x
                 then awaitBackOff (DetachPolicyCommand policyId targetId)
                      ≫= (λ _, ret None)
                 else ret None) →
  DetachesEach targetId policyId (length (List.filter sel xs)) w t w' →
  forOf xs body w = Some (w', t, Ok None).
Proof.
  intros Hb. revert w t. induction xs as [|x rest IH]; intros w t.
  - inversion 1; by subst.
  - cbn [forOf List.filter]. rewrite Hb. destruct (sel x).
    + inversion 1 as [|n w0 w1 w2 attempts out t0 Hbo Hrest]; subst.
      erewrite bind_ok; last first.
      { rewrite awaitBackOff_then. unfold awaitBackOff. by rewrite Hbo. }
      cbn beta iota. by rewrite (IH _ _ Hrest).
    + intros Hrest. erewrite bind_ok; [|done].
      cbn beta iota. by rewrite (IH _ _ Hrest).
Qed.

Lemma DetachesEach_commands targetId policyId n w t w' :
  DetachesEach targetId policyId n w t w' →
  Forall (λ s, command s = DetachPolicyCommand policyId targetId) t.
Proof.
  induction 1 as [|n w w1 w' attempts out t Hbo _ IH]; [done|].
  apply Forall_app. split; [|done].
  by apply backOff_trace in Hbo as (? & _).
Qed.

(** The loop over the pages on Delete, when every page arrives and each
    detach request is resolved in the end. *)
Lemma paginate_detaches {R} fuel F T policyId token
    (body : CommandOutput → M (option R)) w pages t w' :
  ListsAndDetaches F T policyId token w pages t w' →
  (∀ page, body page
     = forOf (default [] (Policies page))
         (λ x, if JS.strictEq (Id x) policyId
               then awaitBackOff (DetachPolicyCommand policyId T)
                    ≫= (λ _, ret None)
               else ret None)) →
  (length pages ≤ fuel)%nat →
  paginateListPoliciesForTarget fuel F T token body w = Some (w', t, Ok None).
Proof.
  intros HL Hb. revert fuel.
  induction HL
    as [token w w1 w' page t Hs Hd Hn
       |token w w1 w2 w' page pages t t' Hs Hd Hn HL IH];
    intros fuel Hf; (destruct fuel as [|fuel]; [simpl in Hf; lia|]);
    cbn [paginateListPoliciesForTarget];
    rewrite (bind_ok _ _ _ _ _ _ (awaitSend_eq _ _ _ _ Hs));
    (erewrite bind_ok;
       [|rewrite Hb;
         by apply (forOf_detaches (λ x, JS.strictEq (Id x) policyId)
                     policyId T _ _ _ _ _ (λ _, eq_refl) Hd)]);
    rewrite Hn.
  - unfold ret. by rewrite app_nil_r.
  - rewrite IH; [done|simpl in Hf; lia].
Qed.

Lemma ListsAndDetaches_pages F T policyId token w pages t w' :
  ListsAndDetaches F T policyId token w pages t w' → pagesOf t = pages.
Proof.
  induction 1
    as [token w w1 w' page t Hs Hd Hn
       |token w w1 w2 w' page pages t t' Hs Hd Hn HL IH];
    match goal with |- pagesOf (?s :: ?l) = _ => change (s :: l) with ([s] ++ l) end;
    rewrite ?pagesOf_app;
    rewrite (attempts_no_pages (DetachPolicyCommand policyId T) _ eq_refl
               (DetachesEach_commands _ _ _ _ _ _ Hd)).
  - done.
  - by rewrite IH.
Qed.

(** The delete branch, when every page arrives and each detach request
    is resolved in the end. *)
Lemma delete_run fuel event w pages t w' :
  Event.RequestType event = Delete →
  let policyId := Event.ResourceProperties event !! "policyId" in
  let targetId := Event.ResourceProperties event !! "targetId" in
  let type := Event.ResourceProperties event !! "type" in
  policyId ≠ Some "p-FullAWSAccess" →
  ListsAndDetaches type targetId policyId None w pages t w' →
  (length pages ≤ fuel)%nat →
  handler fuel event w = Some (w', t, Ok (Some (detached event))).
Proof.
  intros Hrt policyId targetId type Hp HL Hf.
  unfold handler. rewrite Hrt. fold policyId targetId type.
  unfold JS.strictEq at 1. rewrite bool_decide_eq_false_2 by done.
  cbn [negb].
  erewrite bind_ok; last first.
  { by apply (paginate_detaches _ _ _ _ _ _ _ _ _ _ HL). }
  unfold ret. by rewrite app_nil_r.
Qed.

(** In every finished run, a rejected request is the last one, and its
    rejection is what the run settles with, unless it is an attempt of
    an attach or detach request that the back-off helper repeats. *)
Lemma handler_settles fuel event w w' t r :
  handler fuel event w = Some (w', t, r) → Settles t (rejection r).
Proof.
  intros Hrun. destruct (Event.RequestType event) eqn:Hrt.
  1,2: by apply create_update_run_inv in Hrun as [? _]; [|by rewrite Hrt].
  destruct (decide (Event.ResourceProperties event !! "policyId"
                    = Some "p-FullAWSAccess")) as [Hp|Hp].
  - rewrite delete_protected_run in Hrun by done.
    injection Hrun as <- <- <-. constructor.
  - by apply delete_run_inv in Hrun as (_ & ? & _).
Qed.

Lemma page_before_last pre sent post x l y page :
  pre ++ sent :: post ++ [x] = l ++ [y] →
  page ∈ pagesOf (pre ++ [sent]) →
  page ∈ pagesOf l.
Proof.
  intros Heq Hin.
  replace (pre ++ sent :: post ++ [x]) with (((pre ++ [sent]) ++ post) ++ [x])
    in Heq by (by rewrite <- !app_assoc).
  apply app_inj_tail in Heq as [<- _].
  rewrite pagesOf_app. apply elem_of_app. by left.
Qed.

(** *** The invocation contract *)

(** C1 (as amended).  Two invocations in sequence on Create or Update
    with identical resource properties, from a world whose listing
    delivers all its pages and none of them lists the policy id, where
    the attach request is resolved, at the first attempt or after
    attempts rejected as rate-limit failures, and the listing afterwards
    delivers a page that lists the policy id: both invocations return
    [{PhysicalResourceId: policyId_targetId, Status: 'SUCCESS'}]; the
    service carries out exactly one attach, for the policy and the
    target; every attach request is an attempt of the first invocation at
    that one attach, at most one more than the retries allowed, and just
    one when none is rejected; the second invocation issues no attach or
    detach request. *)
Theorem attach_twice_attaches_once
    fuel event1 event2 w0 pages w1 w2 sends out pages' w3 :
  Event.RequestType event1 ≠ Delete →
  Event.RequestType event2 ≠ Delete →
  Event.ResourceProperties event2 = Event.ResourceProperties event1 →
  let policyId := Event.ResourceProperties event1 !! "policyId" in
  let targetId := Event.ResourceProperties event1 !! "targetId" in
  let type := Event.ResourceProperties event1 !! "type" in
  ListsAll type targetId None w0 pages w1 →
  Forall (λ page, listed policyId page = false) pages →
  throttlingBackOff maxRetries
    (awaitSend (AttachPolicyCommand policyId targetId)) w1
    = Some (w2, sends, Ok out) →
  ListsUntil type targetId policyId None w2 pages' w3 →
  (length pages ≤ fuel)%nat →
  (length pages' ≤ fuel)%nat →
  ∃ t1 t2,
    handler fuel event1 w0
      = Some (w2, t1, Ok (Some (attached policyId targetId)))
    ∧ handler fuel event2 w2
      = Some (w3, t2, Ok (Some (attached policyId targetId)))
    ∧ appliedMutations (t1 ++ t2) = [AttachPolicyCommand policyId targetId]
    ∧ attachCalls (t1 ++ t2)
      = replicate (length (attachCalls t1)) (AttachPolicyCommand policyId targetId)
    ∧ (1 ≤ length (attachCalls t1) ≤ S maxRetries)%nat
    ∧ (Forall (λ s, resolved s = true) t1 →
       attachCalls (t1 ++ t2) = [AttachPolicyCommand policyId targetId])
    ∧ mutationCalls t2 = [].
Proof.
  intros Hrt1 Hrt2 Hprops policyId targetId type HL Hno Hat HU Hf Hf'.
  subst policyId targetId type.
  set (F := Event.ResourceProperties event1 !! "type") in *.
  set (T := Event.ResourceProperties event1 !! "targetId") in *.
  exists (listTrace F T None pages ++ sends), (listTrace F T None pages').
  destruct (attach_run_calls F T _ _ pages _ _ _ _ Hat)
    as (Ha & Hc & _ & Hn & Hone & _).
  pose proof (lists_only _ (listTrace_lists F T None pages'))
    as (Hl' & _ & Hm' & Ha').
  unfold attachCalls in *.
  rewrite appliedMutations_app, Ha, Ha', (calls_app _ (_ ++ _)), Hl', !app_nil_r.
  rewrite Hc, length_replicate.
  split_and!.
  - by apply (create_update_attaches fuel event1 w0 pages w1 w2 sends out).
  - pose proof (create_update_finds fuel event2 w2 pages' w3 Hrt2) as Hrun.
    rewrite Hprops in Hrun. by apply Hrun.
  - done.
  - done.
  - lia.
  - lia.
  - intros [_ Hres]%Forall_app. by rewrite (Hone Hres).
  - done.
Qed.

(** C2.  A Delete event whose policyId is 'p-FullAWSAccess' issues no
    request at all, so neither a detach nor a list request, leaves the
    world as it was, and returns the physical resource id of the event
    with Status 'SUCCESS'. *)
Theorem delete_protected_policy_untouched fuel event w :
  Event.RequestType event = Delete →
  Event.ResourceProperties event !! "policyId" = Some "p-FullAWSAccess" →
  handler fuel event w
  = Some (w, [],
          Ok (Some {| Response.PhysicalResourceId := Event.PhysicalResourceId event;
                      Response.Status := "SUCCESS" |})).
Proof. apply delete_protected_run. Qed.

(** C3 (as amended).  A Create event with policyId 'p-1234', targetId
    'ou-5678' and type 'SERVICE_CONTROL_POLICY', where no page of the
    listing contains the policy id and the attach request is resolved, at
    the first attempt or after attempts rejected as rate-limit failures:
    the handler returns [{PhysicalResourceId: 'p-1234_ou-5678', Status:
    'SUCCESS'}]; the service carries out exactly one attach, with
    PolicyId 'p-1234' and TargetId 'ou-5678'; every attach request is an
    attempt at it, at most one more than the retries allowed, and just
    one when no request is rejected; no detach request is issued. *)
Theorem create_scenario_attaches_once fuel event w pages w1 w2 sends out :
  Event.RequestType event = Create →
  Event.ResourceProperties event !! "policyId" = Some "p-1234" →
  Event.ResourceProperties event !! "targetId" = Some "ou-5678" →
  Event.ResourceProperties event !! "type" = Some "SERVICE_CONTROL_POLICY" →
  ListsAll (Some "SERVICE_CONTROL_POLICY") (Some "ou-5678") None w pages w1 →
  Forall (λ page, listed (Some "p-1234") page = false) pages →
  throttlingBackOff maxRetries
    (awaitSend (AttachPolicyCommand (Some "p-1234") (Some "ou-5678"))) w1
    = Some (w2, sends, Ok out) →
  (length pages ≤ fuel)%nat →
  ∃ t,
    handler fuel event w
      = Some (w2, t,
              Ok (Some {| Response.PhysicalResourceId := Some "p-1234_ou-5678";
                          Response.Status := "SUCCESS" |}))
    ∧ appliedMutations t
      = [AttachPolicyCommand (Some "p-1234") (Some "ou-5678")]
    ∧ attachCalls t
      = replicate (length (attachCalls t))
          (AttachPolicyCommand (Some "p-1234") (Some "ou-5678"))
    ∧ (1 ≤ length (attachCalls t) ≤ S maxRetries)%nat
    ∧ (Forall (λ s, resolved s = true) t →
       attachCalls t = [AttachPolicyCommand (Some "p-1234") (Some "ou-5678")])
    ∧ detachCalls t = [].
Proof.
  intros Hrt Hp Ht Hty HL Hno Hat Hf.
  pose proof (create_update_attaches fuel event w pages w1 w2 sends out) as Hrun.
  rewrite Hrt, Hp, Ht, Hty in Hrun. cbv zeta in Hrun.
  eexists. split; [by apply Hrun|].
  destruct (attach_run_calls (Some "SERVICE_CONTROL_POLICY") (Some "ou-5678")
              _ _ pages _ _ _ _ Hat) as (Ha & Hc & Hd & Hn & Hone & _).
  rewrite Hc, length_replicate. split_and!; [done|done|lia|lia| |done].
  intros [_ Hres]%Forall_app. by rewrite (Hone Hres).
Qed.

(** C4 (as amended).  In the listing of the Create and Update branch,
    once a page that lists the policy id has arrived the handler issues
    no further request of any kind, and the invocation issues no attach
    or detach request at all. *)
Theorem create_update_match_short_circuits fuel event w w' t r pre sent post page :
  Event.RequestType event ≠ Delete →
  handler fuel event w = Some (w', t, r) →
  t = pre ++ sent :: post →
  isList (command sent) = true →
  outcome sent = Ok page →
  listed (Event.ResourceProperties event !! "policyId") page = true →
  post = [] ∧ mutationCalls t = [].
Proof.
  intros Hrt Hrun Ht Hsl Hso Hlisted.
  assert (Hin : page ∈ pagesOf (pre ++ [sent])).
  { rewrite pagesOf_app. apply elem_of_app. right.
    unfold pagesOf. cbn. rewrite Hso. destruct (command sent); try done.
    set_solver. }
  assert (Hin' : page ∈ pagesOf t).
  { rewrite Ht.
    replace (pre ++ sent :: post) with ((pre ++ [sent]) ++ post)
      by (by rewrite <- app_assoc).
    rewrite pagesOf_app. apply elem_of_app. by left. }
  assert (Hnot : ∀ l, Forall (λ p, listed (Event.ResourceProperties event !! "policyId") p
                                   = false) (pagesOf l) →
                      page ∉ pagesOf l).
  { intros l Hl Hp. rewrite Forall_forall in Hl. apply Hl in Hp. congruence. }
  apply create_update_run_inv in Hrun as (_ & Hcases); [|done].
  destruct Hcases
    as [(_ & Hl & _ & pre' & cmd & page' & Ht' & _ & Hpre)
       |[(tl & w1 & sends & ro & Ht' & Hbo & _ & _ & Htl & _)|(e & _ & _ & Hall)]].
  - split; [|by apply lists_only].
    destruct post as [|x post _] using rev_ind; [done|].
    exfalso. apply (Hnot pre' Hpre). rewrite Ht in Ht'.
    by eapply page_before_last.
  - exfalso. apply (Hnot tl Htl).
    apply backOff_trace in Hbo as (Hc & _); [|done].
    rewrite Ht', pagesOf_app in Hin'.
    rewrite (attempts_no_pages (AttachPolicyCommand _ _) _ eq_refl Hc) in Hin'.
    by rewrite app_nil_r in Hin'.
  - exfalso. by apply (Hnot t Hall).
Qed.

(** C5 (as amended).  When a request of an invocation is rejected,
    either the rejection is what the invocation settles with and the
    rejected request is the last one issued, or the request is an attach
    or detach request rejected as a rate-limit failure and the next
    request issued is the same request again; an invocation that settles
    with a rejection settles with the rejection of its last request; and
    on Create and Update such an invocation has had no attach or detach
    request carried out. *)
Theorem failure_propagates_without_attach fuel event w w' t r :
  handler fuel event w = Some (w', t, r) →
  (∀ i sent e, t !! i = Some sent → outcome sent = Throw e →
     (r = Throw e ∧ S i = length t)
     ∨ (isMutation (command sent) = true
        ∧ isThrottlingError e = true
        ∧ ∃ next, t !! S i = Some next ∧ command next = command sent))
  ∧ (∀ e, r = Throw e → ∃ sent, last t = Some sent ∧ outcome sent = Throw e)
  ∧ (Event.RequestType event ≠ Delete →
     ∀ e, r = Throw e → appliedMutations t = []).
Proof.
  intros Hrun. split_and!.
  - intros i sent e Hi Hout. apply handler_settles in Hrun.
    destruct (Settles_lookup _ _ _ _ _ Hrun Hi Hout) as [[Hr Hlen]|Hnext];
      [left|by right].
    split; [|done]. destruct r as [v|e']; [done|]. by injection Hr as ->.
  - intros e ->. apply handler_settles in Hrun. by apply Settles_last.
  - intros Hrt e ->.
    apply create_update_run_inv in Hrun as (_ & Hcases); [|done].
    destruct Hcases
      as [(? & _)
         |[(tl & w1 & sends & ro & -> & Hbo & Hl & _ & _ & Hr)|(e' & _ & Hl & _)]].
    + done.
    + destruct ro as [o|e']; [done|].
      apply backOff_trace in Hbo as (_ & _ & Ha & _); [|done].
      rewrite appliedMutations_app, Ha.
      by destruct (lists_only tl Hl) as (_ & _ & _ & ->).
    + by apply lists_only.
Qed.

(** C6.  A Delete event whose policyId is not 'p-FullAWSAccess', where
    no page of the listing contains the policy id: the handler issues
    no detach request and returns the physical resource id of the
    event with Status 'SUCCESS'. *)
Theorem delete_unlisted_policy_succeeds fuel event w pages w1 :
  Event.RequestType event = Delete →
  let policyId := Event.ResourceProperties event !! "policyId" in
  let targetId := Event.ResourceProperties event !! "targetId" in
  let type := Event.ResourceProperties event !! "type" in
  policyId ≠ Some "p-FullAWSAccess" →
  ListsAll type targetId None w pages w1 →
  Forall (λ page, listed policyId page = false) pages →
  (length pages ≤ fuel)%nat →
  ∃ t,
    handler fuel event w
      = Some (w1, t,
              Ok (Some {| Response.PhysicalResourceId := Event.PhysicalResourceId event;
                          Response.Status := "SUCCESS" |}))
    ∧ detachCalls t = [].
Proof.
  intros Hrt policyId targetId type Hp HL Hno Hf.
  exists (listTrace type targetId None pages).
  split; [|by apply lists_only, listTrace_lists].
  unfold handler. rewrite Hrt. fold policyId targetId type.
  unfold JS.strictEq at 1. rewrite bool_decide_eq_false_2 by done.
  cbn [negb].
  erewrite bind_ok; last first.
  { apply (paginate_skip _ _ _ _ _ _ pages w1); [exact HL| |exact Hf].
    intros page w0 Hin. apply detach_body_miss.
    rewrite Forall_forall in Hno. by apply Hno. }
  unfold ret. by rewrite app_nil_r.
Qed.

(** C7.  On an Update event the handler behaves as on a Create event
    with the same resource properties: from the same world it issues
    the same requests, leaves the same world and settles alike. *)
Theorem update_behaves_as_create fuel create update w :
  Event.RequestType create = Create →
  Event.RequestType update = Update →
  Event.ResourceProperties update = Event.ResourceProperties create →
  handler fuel update w = handler fuel create w.
Proof. intros Hc Hu Hp. unfold handler. by rewrite Hc, Hu, Hp. Qed.

(** C9 (as amended).  A Delete event for a policy other than the
    protected one, where every page of the listing arrives and, after
    each page, one detach request per entry of it with the policy's id is
    resolved, at the first attempt or after attempts rejected as
    rate-limit failures: the handler returns the physical resource id of
    the event with Status 'SUCCESS', having gone through all the pages;
    the service carries out one detach, for the policy and the target of
    the event, per entry with the policy's id on all the pages, however
    many there are; the detach requests issued are at most that many
    times one more than the retries allowed, and exactly that many when
    no request is rejected. *)
Theorem delete_detaches_every_occurrence fuel event w pages t w' :
  Event.RequestType event = Delete →
  let policyId := Event.ResourceProperties event !! "policyId" in
  let targetId := Event.ResourceProperties event !! "targetId" in
  let type := Event.ResourceProperties event !! "type" in
  policyId ≠ Some "p-FullAWSAccess" →
  ListsAndDetaches type targetId policyId None w pages t w' →
  (length pages ≤ fuel)%nat →
  handler fuel event w
  = Some (w', t,
          Ok (Some {| Response.PhysicalResourceId := Event.PhysicalResourceId event;
                      Response.Status := "SUCCESS" |}))
  ∧ pagesOf t = pages
  ∧ appliedMutations t
    = replicate (occurrences policyId pages)
        (DetachPolicyCommand policyId targetId)
  ∧ (length (detachCalls t) ≤ occurrences policyId pages * S maxRetries)%nat
  ∧ (Forall (λ s, resolved s = true) t →
     detachCalls t
     = replicate (occurrences policyId pages)
         (DetachPolicyCommand policyId targetId)).
Proof.
  intros Hrt policyId targetId type Hp HL Hf.
  pose proof (delete_run fuel event w pages t w' Hrt Hp HL Hf) as Hrun.
  pose proof (ListsAndDetaches_pages _ _ _ _ _ _ _ _ HL) as Hpages.
  split; [done|].
  apply delete_run_inv in Hrun as (Hshape & _ & (_ & Hcount & _) & Hlen);
    [|done..].
  fold policyId targetId in Hshape, Hcount, Hlen.
  rewrite Hpages in Hcount, Hlen. split_and!; [done..|].
  intros Hres. rewrite <- Hcount.
  by apply (resolved_detach_calls (DetachPolicyCommand policyId targetId)).
Qed.

(** C10.  Whatever the handler returns carries Status 'SUCCESS': a
    run that settles with a value settles with a response object, never
    with [undefined], and its Status is 'SUCCESS'. *)
Theorem returned_status_is_success fuel event w w' t v :
  handler fuel event w = Some (w', t, Ok v) →
  ∃ result, v = Some result ∧ Response.Status result = "SUCCESS".
Proof.
  intros Hrun. destruct (Event.RequestType event) eqn:Hrt.
  1,2: apply create_update_run_inv in Hrun as (_ & Hcases); [|by rewrite Hrt];
    destruct Hcases
      as [(Hr & _)|[(tl & w1 & sends & ro & _ & _ & _ & _ & _ & Hr)|(e & Hr & _)]];
    [by injection Hr as ->; eexists
    |destruct ro; [by injection Hr as ->; eexists|done]
    |done].
  destruct (decide (Event.ResourceProperties event !! "policyId"
                    = Some "p-FullAWSAccess")) as [Hp|Hp].
  - rewrite delete_protected_run in Hrun by done.
    injection Hrun as <- <- <-. by eexists.
  - apply delete_run_inv in Hrun as (_ & _ & (-> & _) & _); [|done..]. by eexists.
Qed.

End HandlerFacts.

(** ** The construct wrappers *)

Section ConstructFacts.

Import Constructs.

Context {cdk : Cdk} {G : Type} {gen : UuidGenerator G}.






End ConstructFacts.

(** ** The scenarios, run *)

Section ScenarioRuns.

Import Scripted Scenarios ThrottleScenarios Constructs.Drawn.

(** C1, as stated, fails where the policy is attached before the first
    invocation: both invocations find it listed and return the success
    result, and the attach requests of the two are none, not one. *)
Lemma attach_twice_already_attached :
  run 1 createEvent alreadyAttached
    = Some ([Ok attachedPage], [listSent None (Ok attachedPage)],
            success "p-1234_ou-5678")
  ∧ run 1 createEvent [Ok attachedPage]
    = Some ([], [listSent None (Ok attachedPage)], success "p-1234_ou-5678")
  ∧ length (attachCalls ([listSent None (Ok attachedPage)]
                           ++ [listSent None (Ok attachedPage)])) ≠ 1.
Proof. split_and!; [reflexivity..|]. vm_compute. lia. Qed.

Lemma attach_twice_attaches_once_witness :
  ∃ t1 t2,
    run 2 createEvent notAttachedThrottled
      = Some ([Ok attachedPage], t1, success "p-1234_ou-5678")
    ∧ run 2 updateEvent [Ok attachedPage]
      = Some ([], t2, success "p-1234_ou-5678")
    ∧ appliedMutations (t1 ++ t2)
      = [AttachPolicyCommand (Some "p-1234") (Some "ou-5678")]
    ∧ attachCalls (t1 ++ t2)
      = replicate (length (attachCalls t1))
          (AttachPolicyCommand (Some "p-1234") (Some "ou-5678"))
    ∧ (1 ≤ length (attachCalls t1) ≤ 4)%nat
    ∧ (Forall (λ s, resolved s = true) t1 →
       attachCalls (t1 ++ t2)
       = [AttachPolicyCommand (Some "p-1234") (Some "ou-5678")])
    ∧ mutationCalls t2 = [].
Proof.
  refine (attach_twice_attaches_once 2 createEvent updateEvent
            notAttachedThrottled otherPages
            [Throw "TooManyRequestsException"; Ok ack; Ok attachedPage]
            [Ok attachedPage]
            [attachSent (Throw "TooManyRequestsException"); attachSent (Ok ack)]
            ack [attachedPage] [] _ _ _ _ _ _ _ _ _).
  - discriminate.
  - discriminate.
  - reflexivity.
  - eapply ListsAll_next; [reflexivity..|].
    eapply ListsAll_last; reflexivity.
  - repeat constructor.
  - reflexivity.
  - eapply ListsUntil_found; reflexivity.
  - simpl; lia.
  - simpl; lia.
Defined.

Lemma delete_protected_policy_untouched_witness :
  run 0 deleteProtectedEvent alreadyAttached
  = Some (alreadyAttached, [], success "p-FullAWSAccess_ou-5678").
Proof.
  apply (delete_protected_policy_untouched 0 deleteProtectedEvent alreadyAttached);
    reflexivity.
Defined.

(** C3, as stated, fails where the service rejects the first attach
    request as a rate-limit failure: the back-off helper issues it again,
    so that the invocation returns the success result after two attach
    requests, not one. *)
Lemma create_attach_retried_sends_twice :
  run 1 createEvent attachThrottled
    = Some ([],
            [listSent None (Ok (page [] None));
             attachSent (Throw "TooManyRequestsException");
             attachSent (Ok ack)],
            success "p-1234_ou-5678")
  ∧ listed (Some "p-1234") (page [] None) = false
  ∧ attachCalls
      [listSent None (Ok (page [] None));
       attachSent (Throw "TooManyRequestsException");
       attachSent (Ok ack)]
    = [AttachPolicyCommand (Some "p-1234") (Some "ou-5678");
       AttachPolicyCommand (Some "p-1234") (Some "ou-5678")].
Proof. split_and!; reflexivity. Qed.

Lemma create_scenario_attaches_once_witness :
  ∃ t,
    run 2 createEvent notAttached
      = Some ([Ok attachedPage], t, success "p-1234_ou-5678")
    ∧ appliedMutations t
      = [AttachPolicyCommand (Some "p-1234") (Some "ou-5678")]
    ∧ attachCalls t
      = replicate (length (attachCalls t))
          (AttachPolicyCommand (Some "p-1234") (Some "ou-5678"))
    ∧ (1 ≤ length (attachCalls t) ≤ 4)%nat
    ∧ (Forall (λ s, resolved s = true) t →
       attachCalls t = [AttachPolicyCommand (Some "p-1234") (Some "ou-5678")])
    ∧ detachCalls t = [].
Proof.
  refine (create_scenario_attaches_once 2 createEvent notAttached
            otherPages [Ok ack; Ok attachedPage] [Ok attachedPage]
            [attachSent (Ok ack)] ack _ _ _ _ _ _ _ _).
  - reflexivity.
  - reflexivity.
  - reflexivity.
  - reflexivity.
  - eapply ListsAll_next; [reflexivity..|].
    eapply ListsAll_last; reflexivity.
  - repeat constructor.
  - reflexivity.
  - simpl; lia.
Defined.

(** C4, as stated, fails on the delete branch: after the page that lists
    the policy has arrived, a detach request is issued. *)
Lemma delete_match_is_followed_by_detach :
  run 1 deleteEvent [Ok attachedPage; Ok ack]
    = Some ([],
            [] ++ listSent None (Ok attachedPage) :: [detachSent (Ok ack)],
            success "p-1234_ou-5678")
  ∧ listed (Some "p-1234") attachedPage = true
  ∧ mutationCalls [detachSent (Ok ack)] ≠ [].
Proof. split_and!; [reflexivity..|]. vm_compute. discriminate. Qed.

Lemma create_update_match_short_circuits_witness :
  run 1 createEvent alreadyAttached
    = Some ([Ok attachedPage], [] ++ listSent None (Ok attachedPage) :: [],
            success "p-1234_ou-5678")
  ∧ @nil Sent = []
  ∧ mutationCalls [listSent None (Ok attachedPage)] = [].
Proof.
  split; [reflexivity|].
  apply (create_update_match_short_circuits 1 createEvent alreadyAttached
           [Ok attachedPage] [listSent None (Ok attachedPage)]
           (success "p-1234_ou-5678") [] (listSent None (Ok attachedPage)) []
           attachedPage).
  - discriminate.
  - reflexivity.
  - reflexivity.
  - reflexivity.
  - reflexivity.
  - reflexivity.
Defined.

(** C5, as stated, fails on the delete branch: the invocation settles
    with the rejection of the request for the second page after its
    detach request was carried out. *)
Lemma delete_rejected_after_detach :
  run 2 deleteEvent secondPageDenied
    = Some ([],
            [listSent None (Ok (page ["p-1234"] (Some "token-1")));
             detachSent (Ok ack);
             listSent (Some "token-1") (Throw "AccessDeniedException")],
            Throw "AccessDeniedException")
  ∧ appliedMutations
      [listSent None (Ok (page ["p-1234"] (Some "token-1")));
       detachSent (Ok ack);
       listSent (Some "token-1") (Throw "AccessDeniedException")]
    ≠ [].
Proof. split; [reflexivity|]. vm_compute. discriminate. Qed.

Lemma failure_propagates_without_attach_witness :
  run 1 createEvent attachDenied
    = Some ([], attachDeniedTrace, Throw "AccessDeniedException")
  ∧ (∀ i sent e,
       attachDeniedTrace !! i = Some sent →
       outcome sent = Throw e →
       (Throw (A := option Response.t) "AccessDeniedException" = Throw e
        ∧ S i = length attachDeniedTrace)
       ∨ (isMutation (command sent) = true
          ∧ isThrottlingError e = true
          ∧ ∃ next, attachDeniedTrace !! S i = Some next
                    ∧ command next = command sent))
  ∧ (∀ e, Throw (A := option Response.t) "AccessDeniedException" = Throw e →
          ∃ sent, last attachDeniedTrace = Some sent ∧ outcome sent = Throw e)
  ∧ (Event.RequestType createEvent ≠ Delete →
     ∀ e, Throw (A := option Response.t) "AccessDeniedException" = Throw e →
          appliedMutations attachDeniedTrace = []).
Proof.
  split; [reflexivity|].
  apply (failure_propagates_without_attach 1 createEvent attachDenied []).
  reflexivity.
Defined.

Lemma delete_unlisted_policy_succeeds_witness :
  ∃ t,
    run 2 deleteEvent (Ok <$> otherPages)
      = Some ([], t, success "p-1234_ou-5678")
    ∧ detachCalls t = [].
Proof.
  apply (delete_unlisted_policy_succeeds 2 deleteEvent (Ok <$> otherPages)
           otherPages []).
  - reflexivity.
  - discriminate.
  - eapply ListsAll_next; [reflexivity..|].
    eapply ListsAll_last; reflexivity.
  - repeat constructor.
  - simpl; lia.
Defined.

Lemma update_behaves_as_create_witness :
  run 2 updateEvent notAttached = run 2 createEvent notAttached.
Proof.
  apply (update_behaves_as_create 2 createEvent updateEvent notAttached);
    reflexivity.
Defined.

(** C9, as stated, fails where the service rejects a detach request as a
    rate-limit failure: the back-off helper issues it again, so that for
    the one entry with the policy's id the invocation issues two detach
    requests. *)
Lemma delete_detach_retried_sends_twice :
  run 1 deleteEvent detachThrottled
    = Some ([],
            [listSent None (Ok (page ["p-1234"] None));
             detachSent (Throw "TooManyRequestsException");
             detachSent (Ok ack)],
            success "p-1234_ou-5678")
  ∧ occurrences (Some "p-1234") [page ["p-1234"] None] = 1
  ∧ length (detachCalls
              [listSent None (Ok (page ["p-1234"] None));
               detachSent (Throw "TooManyRequestsException");
               detachSent (Ok ack)]) = 2.
Proof. split_and!; reflexivity. Qed.

Lemma delete_detaches_every_occurrence_witness :
  run 2 deleteEvent repeatedThrottled
    = Some ([], repeatedThrottledTrace, success "p-1234_ou-5678")
  ∧ pagesOf repeatedThrottledTrace = repeatedPages
  ∧ appliedMutations repeatedThrottledTrace
    = replicate (occurrences (Some "p-1234") repeatedPages)
        (DetachPolicyCommand (Some "p-1234") (Some "ou-5678"))
  ∧ (length (detachCalls repeatedThrottledTrace)
     ≤ occurrences (Some "p-1234") repeatedPages * 4)%nat
  ∧ (Forall (λ s, resolved s = true) repeatedThrottledTrace →
     detachCalls repeatedThrottledTrace
     = replicate (occurrences (Some "p-1234") repeatedPages)
         (DetachPolicyCommand (Some "p-1234") (Some "ou-5678"))).
Proof.
  refine (delete_detaches_every_occurrence 2 deleteEvent repeatedThrottled
            repeatedPages repeatedThrottledTrace [] _ _ _ _).
  - reflexivity.
  - discriminate.
  - refine (ListsAndDetaches_next _ _ _ None repeatedThrottled _ _ []
              _ [page ["p-1234"] None]
              [detachSent (Throw "TooManyRequestsException");
               detachSent (Ok ack); detachSent (Ok ack)]
              [listSent (Some "token-1") (Ok (page ["p-1234"] None));
               detachSent (Ok ack)] _ _ _ _).
    + reflexivity.
    + refine (DetachesEach_S _ _ 1 _ _ _
                [detachSent (Throw "TooManyRequestsException");
                 detachSent (Ok ack)] ack [detachSent (Ok ack)] _ _);
        [reflexivity|].
      refine (DetachesEach_S _ _ 0 _ _ _ [detachSent (Ok ack)] ack [] _ _);
        [reflexivity|].
      apply DetachesEach_O.
    + reflexivity.
    + refine (ListsAndDetaches_last _ _ _ (Some "token-1") _ _ []
                (page ["p-1234"] None) [detachSent (Ok ack)] _ _ _).
      * reflexivity.
      * refine (DetachesEach_S _ _ 0 _ _ _ [detachSent (Ok ack)] ack [] _ _);
          [reflexivity|].
        apply DetachesEach_O.
      * reflexivity.
  - simpl; lia.
Defined.

Lemma returned_status_is_success_witness :
  ∃ result,
    Some {| Response.PhysicalResourceId := Some "p-1234_ou-5678";
            Response.Status := "SUCCESS" |} = Some result
    ∧ Response.Status result = "SUCCESS".
Proof.
  apply (returned_status_is_success 2 createEvent notAttached
           [Ok attachedPage]
           [listSent None (Ok (page ["p-FullAWSAccess"] (Some "token-1")));
            listSent (Some "token-1") (Ok (page ["p-0001"] None));
            attachSent (Ok ack)]).
  reflexivity.
Defined.


End ScenarioRuns.

(** * Further properties of the handler *)

Section HandlerMore.

Context {World : Type} {client : OrganizationsClient World}
        {policy : BackOffPolicy}.

Implicit Types (w : World) (t : Trace).

(** The requests of a finished run of the page loop are list requests
    for the filter and the target of the loop, and requests of the body. *)
Lemma paginate_shape {R} (P : Sent → Prop) fuel F T token
    (body : CommandOutput → M (option R)) w w' t r :
  (∀ page w0 w1 t0 r0, body page w0 = Some (w1, t0, r0) → Forall P t0) →
  (∀ tok o, P {| command := ListPoliciesForTargetCommand F T tok; outcome := o |}) →
  paginateListPoliciesForTarget fuel F T token body w = Some (w', t, r) →
  Forall P t.
Proof.
  intros Hbody Hlist. revert token w w' t r.
  induction fuel as [|fuel IH]; intros token w w' t r; [done|].
  cbn [paginateListPoliciesForTarget].
  intros [(e & Hm & ->)|(w1 & t1 & page & t2 & Hm & Hk & ->)]%bind_inv;
    apply awaitSend_inv in Hm as [_ ->].
  { by repeat constructor. }
  apply Forall_app. split; [by repeat constructor|].
  apply bind_inv in Hk as [(e & Hm & ->)|(w2 & t3 & a & t4 & Hm & Hk & ->)].
  { by eapply Hbody. }
  apply Forall_app. split; [by eapply Hbody|].
  destruct a as [v|].
  - by injection Hk as <- <- <-.
  - destruct (JS.truthy (NextToken page)).
    + by eapply IH.
    + by injection Hk as <- <- <-.
Qed.

(** The requests of a finished run carry the values of the event. *)
Lemma handler_requests_shape fuel event w w' t r :
  handler fuel event w = Some (w', t, r) →
  Forall
    (λ s, match command s with
          | ListPoliciesForTargetCommand F T _ =>
              F = Event.ResourceProperties event !! "type"
              ∧ T = Event.ResourceProperties event !! "targetId"
          | AttachPolicyCommand P T | DetachPolicyCommand P T =>
              P = Event.ResourceProperties event !! "policyId"
              ∧ T = Event.ResourceProperties event !! "targetId"
          end) t.
Proof.
  intros Hrun. destruct (Event.RequestType event) eqn:Hrt.
  1,2: rewrite handler_create_update in Hrun by (by rewrite Hrt);
    apply bind_inv in Hrun
      as [(e & Hm & ->)|(w1 & t1 & found & t2 & Hm & Hk & ->)];
    [eapply paginate_shape in Hm; [exact Hm| |done];
       intros page w0 w1 t0 r0; rewrite search_body; by intros [= <- <- <-]
    |apply Forall_app; split;
       [eapply paginate_shape in Hm; [exact Hm| |done];
          intros page w0 w3 t0 r0; rewrite search_body; by intros [= <- <- <-]
       |destruct found as [result|];
          [by injection Hk as <- <- <-
          |rewrite awaitBackOff_then in Hk;
             destruct (awaitBackOff _ w1) as [[[w2 sends] ro]|] eqn:Hbo; [|done];
             injection Hk as <- <- <-;
             apply backOff_trace in Hbo as (Hc & _); [|done];
             eapply Forall_impl; [exact Hc|]; by intros s ->]]].
  unfold handler in Hrun. rewrite Hrt in Hrun.
  apply bind_inv in Hrun
    as [(e & Hm & ->)|(w1 & t1 & a & t2 & Hm & Hk & ->)].
  2: injection Hk as <- <- <-; rewrite app_nil_r.
  all: destruct (negb _); [|unfold ret in Hm; by simplify_eq].
  all: eapply paginate_shape in Hm; [exact Hm| |done].
  all: intros page w0 w3 t0 r0 Hb;
    apply (forOf_detach_inv
             (λ x, JS.strictEq (Id x) (Event.ResourceProperties event !! "policyId"))
             (DetachPolicyCommand
               (Event.ResourceProperties event !! "policyId")
               (Event.ResourceProperties event !! "targetId"))) in Hb
      as (Hc & _); [|done..];
    eapply Forall_impl; [exact Hc|]; by intros s ->.
Qed.

(** X4.  Every request of an invocation is for the event's own values:
    a list request carries the type of the event as Filter and its
    targetId as TargetId, an attach or detach request its policyId and
    its targetId. *)
Theorem requests_concern_event_only fuel event w w' t r :
  handler fuel event w = Some (w', t, r) →
  Forall
    (λ s, match command s with
          | ListPoliciesForTargetCommand F T _ =>
              F = Event.ResourceProperties event !! "type"
              ∧ T = Event.ResourceProperties event !! "targetId"
          | AttachPolicyCommand P T | DetachPolicyCommand P T =>
              P = Event.ResourceProperties event !! "policyId"
              ∧ T = Event.ResourceProperties event !! "targetId"
          end) t.
Proof. apply handler_requests_shape. Qed.

(** What a run on Create or Update returns. *)
Lemma create_update_returns fuel event w w' t v :
  Event.RequestType event ≠ Delete →
  handler fuel event w = Some (w', t, Ok v) →
  v = Some (attached (Event.ResourceProperties event !! "policyId")
                     (Event.ResourceProperties event !! "targetId")).
Proof.
  intros Hrt Hrun.
  apply create_update_run_inv in Hrun as (_ & Hcases); [|done].
  destruct Hcases
    as [(Hr & _)|[(tl & w1 & sends & ro & _ & _ & _ & _ & _ & Hr)|(e & Hr & _)]].
  - by injection Hr as ->.
  - destruct ro; [by injection Hr as ->|done].
  - done.
Qed.

(** X1.  On Create and Update, when the listing arrives up to a page
    that lists the policy id, the handler returns the success result
    having issued the list requests up to that page and nothing else: no
    attach request, and no request for a later page. *)
Theorem create_update_already_attached fuel event w pages w1 :
  Event.RequestType event ≠ Delete →
  let policyId := Event.ResourceProperties event !! "policyId" in
  let targetId := Event.ResourceProperties event !! "targetId" in
  let type := Event.ResourceProperties event !! "type" in
  ListsUntil type targetId policyId None w pages w1 →
  (length pages ≤ fuel)%nat →
  handler fuel event w
    = Some (w1, listTrace type targetId None pages,
            Ok (Some (attached policyId targetId)))
  ∧ mutationCalls (listTrace type targetId None pages) = []
  ∧ length (listTrace type targetId None pages) = length pages.
Proof.
  intros Hrt policyId targetId type HL Hf. split_and!.
  - by apply create_update_finds.
  - by apply lists_only, listTrace_lists.
  - clear. generalize (@None string).
    induction pages as [|page rest IH]; intros token; [done|].
    cbn. by rewrite IH.
Qed.

(** X2.  On Create and Update, when the whole listing arrives without
    the policy id and the attach request is rejected in the end, by an
    error that the back-off helper does not retry or at the last attempt
    it allows, the handler rejects with that very error, which is the
    rejection of its last request; before it come the list requests and
    the earlier attempts at the attach, at most as many as retries are
    allowed, and no attach has been carried out. *)
Theorem create_update_attach_rejected fuel event w pages w1 w2 sends e :
  Event.RequestType event ≠ Delete →
  let policyId := Event.ResourceProperties event !! "policyId" in
  let targetId := Event.ResourceProperties event !! "targetId" in
  let type := Event.ResourceProperties event !! "type" in
  ListsAll type targetId None w pages w1 →
  Forall (λ page, listed policyId page = false) pages →
  throttlingBackOff maxRetries
    (awaitSend (AttachPolicyCommand policyId targetId)) w1
    = Some (w2, sends, Throw e) →
  (length pages ≤ fuel)%nat →
  handler fuel event w
    = Some (w2, listTrace type targetId None pages ++ sends, Throw e)
  ∧ last (listTrace type targetId None pages ++ sends)
    = Some {| command := AttachPolicyCommand policyId targetId;
              outcome := Throw e |}
  ∧ attachCalls (listTrace type targetId None pages ++ sends)
    = replicate (length sends) (AttachPolicyCommand policyId targetId)
  ∧ (1 ≤ length sends ≤ S maxRetries)%nat
  ∧ appliedMutations (listTrace type targetId None pages ++ sends) = [].
Proof.
  intros Hrt policyId targetId type HL Hno Hat Hf. split.
  - rewrite handler_create_update by done.
    subst policyId targetId type. cbv zeta.
    erewrite bind_ok; last first.
    { apply (paginate_skip _ _ _ _ _ _ pages w1); [exact HL| |exact Hf].
      intros page w0 Hin. rewrite search_body.
      rewrite Forall_forall in Hno. by rewrite (Hno page Hin). }
    cbn beta iota. rewrite awaitBackOff_then. unfold awaitBackOff.
    by rewrite Hat.
  - pose proof (backOff_inv _ _ _ _ _ _ Hat) as (pre & Hsends & _ & Hlen).
    apply backOff_trace in Hat as (Hc & _ & Ha & Hn & Hlast); [|done].
    pose proof (lists_only _ (listTrace_lists type targetId None pages))
      as (Hla & _ & _ & Hlm).
    unfold attachCalls in *.
    rewrite appliedMutations_app, calls_app, Hla, Hlm, Ha.
    rewrite (calls_all isAttach (AttachPolicyCommand policyId targetId) _
               eq_refl Hc).
    split_and!; [|done| |done|done].
    + rewrite Hsends, app_assoc. by rewrite last_snoc.
    + rewrite Hsends, length_app. simpl. lia.
Qed.

(** X3.  An invocation on Create or Update never issues a detach
    request and has at most one attach carried out; its attach requests
    are attempts at the one attach, at most one more than the retries
    allowed, and an attach request that is resolved is its last
    request. *)
Theorem create_update_attaches_at_most_once fuel event w w' t r :
  Event.RequestType event ≠ Delete →
  handler fuel event w = Some (w', t, r) →
  detachCalls t = []
  ∧ (length (appliedMutations t) ≤ 1)%nat
  ∧ (length (attachCalls t) ≤ S maxRetries)%nat
  ∧ (∀ s, s ∈ t → isAttach (command s) = true → resolved s = true →
          last t = Some s).
Proof.
  intros Hrt Hrun.
  apply create_update_run_inv in Hrun as (_ & Hcases); [|done].
  assert (Hnone : ∀ l, Forall (λ s, isList (command s) = true) l →
                       ∀ s, s ∈ l → isAttach (command s) = true → False).
  { intros l Hl s Hs Ha. rewrite Forall_forall in Hl. apply Hl in Hs.
    by destruct (command s). }
  destruct Hcases
    as [(_ & Hl & _)
       |[(tl & w1 & sends & ro & -> & Hbo & Hl & _)|(e & _ & Hl & _)]].
  - destruct (lists_only t Hl) as (Ha & Hd & _ & Hm). rewrite Ha, Hd, Hm.
    split_and!; [done|simpl; lia|simpl; lia|]. intros s Hs Hat.
    by destruct (Hnone t Hl s).
  - destruct (lists_only tl Hl) as (Ha & Hd & _ & Hm).
    pose proof (backOff_inv _ _ _ _ _ _ Hbo) as (pre & -> & Hpre & Hlen).
    apply backOff_trace in Hbo as (Hc & _ & Hap & Hn & _); [|done].
    unfold attachCalls, detachCalls in *.
    rewrite appliedMutations_app, !(calls_app _ tl), Ha, Hd, Hm, Hap.
    rewrite (calls_all isAttach (AttachPolicyCommand _ _) _ eq_refl Hc).
    rewrite (calls_none isDetach (pre ++ _))
      by (eapply Forall_impl; [exact Hc|]; by intros s ->).
    split_and!; [done|destruct ro; simpl; lia|simpl; by rewrite length_replicate|].
    intros s [Hs|[Hs|Hs%list_elem_of_singleton]%elem_of_app]%elem_of_app Hat Hres.
    + by destruct (Hnone tl Hl s).
    + rewrite Forall_forall in Hpre. apply Hpre in Hs as (_ & e & Ho & _).
      unfold resolved in Hres. by rewrite Ho in Hres.
    + subst s. by rewrite app_assoc, last_snoc.
  - destruct (lists_only t Hl) as (Ha & Hd & _ & Hm). rewrite Ha, Hd, Hm.
    split_and!; [done|simpl; lia|simpl; lia|]. intros s Hs Hat.
    by destruct (Hnone t Hl s).
Qed.

(** X5.  An invocation on Delete never issues an attach request. *)
Theorem delete_never_attaches fuel event w w' t r :
  Event.RequestType event = Delete →
  handler fuel event w = Some (w', t, r) →
  attachCalls t = [].
Proof.
  intros Hrt Hrun.
  destruct (decide (Event.ResourceProperties event !! "policyId"
                    = Some "p-FullAWSAccess")) as [Hp|Hp].
  - rewrite delete_protected_run in Hrun by done. by injection Hrun as <- <- <-.
  - apply delete_run_inv in Hrun as (Hshape & _); [|done..].
    apply calls_none. eapply Forall_impl; [exact Hshape|].
    intros s [Hs| ->]; [by destruct (command s)|done].
Qed.

(** X6.  Whatever an invocation on Create or Update returns has the
    physical resource id made of the policyId and the targetId of the
    resource properties, joined by an underscore; the physical resource id
    the event came with plays no part, so an Update can return another id
    than the one it was given. *)
Theorem create_update_physical_id fuel event w w' t v :
  Event.RequestType event ≠ Delete →
  handler fuel event w = Some (w', t, Ok v) →
  v = Some {| Response.PhysicalResourceId :=
                Some (JS.toString (Event.ResourceProperties event !! "policyId")
                      +:+ "_"
                      +:+ JS.toString (Event.ResourceProperties event !! "targetId"));
              Response.Status := "SUCCESS" |}.
Proof. apply create_update_returns. Qed.

(** X7.  A Create or Update event whose resource properties have no
    targetId is not refused: every request of the handler carries an
    undefined TargetId, and what it returns has the physical resource id
    of the policy id followed by "_undefined". *)
Theorem create_update_without_target fuel event w w' t v policyId :
  Event.RequestType event ≠ Delete →
  Event.ResourceProperties event !! "policyId" = Some policyId →
  Event.ResourceProperties event !! "targetId" = None →
  handler fuel event w = Some (w', t, Ok v) →
  v = Some {| Response.PhysicalResourceId := Some (policyId +:+ "_undefined");
              Response.Status := "SUCCESS" |}
  ∧ Forall (λ s, match command s with
                 | ListPoliciesForTargetCommand _ T _
                 | AttachPolicyCommand _ T
                 | DetachPolicyCommand _ T => T = None
                 end) t.
Proof.
  intros Hrt Hp Ht Hrun. split.
  - apply create_update_returns in Hrun; [|done].
    rewrite Hrun, Hp, Ht. done.
  - apply handler_requests_shape in Hrun. rewrite Ht in Hrun.
    eapply Forall_impl; [exact Hrun|].
    intros s Hs. cbn beta in Hs |- *. destruct (command s); by destruct Hs.
Qed.

(** X8.  Whatever an invocation on Delete returns has the physical
    resource id the event came with, whether it detached anything or
    not. *)
Theorem delete_echoes_physical_id fuel event w w' t v :
  Event.RequestType event = Delete →
  handler fuel event w = Some (w', t, Ok v) →
  v = Some {| Response.PhysicalResourceId := Event.PhysicalResourceId event;
              Response.Status := "SUCCESS" |}.
Proof.
  intros Hrt Hrun.
  destruct (decide (Event.ResourceProperties event !! "policyId"
                    = Some "p-FullAWSAccess")) as [Hp|Hp].
  - rewrite delete_protected_run in Hrun by done. by injection Hrun as <- <- <-.
  - by apply delete_run_inv in Hrun as (_ & _ & (-> & _) & _).
Qed.

(** X9.  A Create or Update event whose resource properties have no
    policyId takes an entry without an id for the policy: when the first
    page of the listing has such an entry, the handler returns the success
    result with the physical resource id "undefined_" followed by the
    target, after that one list request and without attaching. *)
Theorem create_update_without_policy_matches_nameless fuel event w w1 page entry :
  Event.RequestType event ≠ Delete →
  Event.ResourceProperties event !! "policyId" = None →
  send (ListPoliciesForTargetCommand
          (Event.ResourceProperties event !! "type")
          (Event.ResourceProperties event !! "targetId") None) w
    = (w1, Ok page) →
  entry ∈ default [] (Policies page) →
  Id entry = None →
  handler (S fuel) event w
  = Some (w1,
          [{| command := ListPoliciesForTargetCommand
                           (Event.ResourceProperties event !! "type")
                           (Event.ResourceProperties event !! "targetId") None;
              outcome := Ok page |}],
          Ok (Some {| Response.PhysicalResourceId :=
                        Some ("undefined_"
                              +:+ JS.toString
                                    (Event.ResourceProperties event !! "targetId"));
                      Response.Status := "SUCCESS" |})).
Proof.
  intros Hrt Hp Hsend Hin Hid.
  assert (Hl : listed None page = true).
  { unfold listed. apply existsb_exists. exists entry.
    split; [by apply list_elem_of_In|]. by rewrite Hid. }
  pose proof (create_update_finds (S fuel) event w [page] w1 Hrt) as Hrun.
  rewrite Hp in Hrun. cbv zeta in Hrun.
  rewrite Hrun; [done| |simpl; lia].
  by apply ListsUntil_found.
Qed.

(** X10.  An invocation on Delete, whether it returns or rejects,
    never has more detaches carried out than there are entries with the
    policy's id on the pages it was delivered, and never issues more
    detach requests than that many times one more than the retries
    allowed: a policy that no delivered page lists is not detached. *)
Theorem delete_detaches_listed_only fuel event w w' t r :
  Event.RequestType event = Delete →
  handler fuel event w = Some (w', t, r) →
  (length (appliedMutations t)
   ≤ occurrences (Event.ResourceProperties event !! "policyId") (pagesOf t))%nat
  ∧ (length (detachCalls t)
     ≤ occurrences (Event.ResourceProperties event !! "policyId") (pagesOf t)
       * S maxRetries)%nat.
Proof.
  intros Hrt Hrun.
  destruct (decide (Event.ResourceProperties event !! "policyId"
                    = Some "p-FullAWSAccess")) as [Hp|Hp].
  - rewrite delete_protected_run in Hrun by done.
    injection Hrun as <- <- <-. simpl. lia.
  - apply delete_run_inv in Hrun as (_ & _ & Hr & Hlen); [|done..].
    split; [|done].
    destruct r as [v|e]; [|done]. destruct Hr as (_ & -> & _).
    by rewrite length_replicate.
Qed.

(** X11.  On Create and Update, once a list request is rejected the
    handler rejects with that error and has not attempted the attach. *)
Theorem list_rejection_prevents_attach fuel event w w' t r sent e :
  Event.RequestType event ≠ Delete →
  handler fuel event w = Some (w', t, r) →
  sent ∈ t →
  isList (command sent) = true →
  outcome sent = Throw e →
  r = Throw e ∧ attachCalls t = [].
Proof.
  intros Hrt Hrun Hin Hsl Hout.
  assert (Hres : ∀ l, Forall (λ s, resolved s = true) l → sent ∉ l).
  { intros l Hl Hs. rewrite Forall_forall in Hl. apply Hl in Hs.
    unfold resolved in Hs. by rewrite Hout in Hs. }
  assert (Hr : r = Throw e).
  { apply handler_settles in Hrun.
    apply list_elem_of_lookup in Hin as [i Hi].
    destruct (Settles_lookup _ _ _ _ _ Hrun Hi Hout) as [[Hr _]|(Hm & _)].
    - destruct r as [v|e']; [done|]. by injection Hr as ->.
    - by destruct (command sent). }
  split; [done|]. subst r.
  apply create_update_run_inv in Hrun as (_ & Hcases); [|done].
  destruct Hcases
    as [(? & _)
       |[(tl & w1 & sends & ro & -> & Hbo & _ & Hresolved & _)|(e' & _ & Hl & _)]].
  - done.
  - exfalso. apply elem_of_app in Hin as [Hin|Hin].
    + by destruct (Hres tl Hresolved).
    + apply backOff_trace in Hbo as (Hc & _); [|done].
      rewrite Forall_forall in Hc. apply Hc in Hin. by rewrite Hin in Hsl.
  - by apply lists_only.
Qed.

(** X21.  A page that comes without a Policies field counts as a page
    without entries: on Create and Update, when every page of the listing
    is such a page and the attach request is resolved, at the first
    attempt or at a later one, the handler attaches and returns the
    success result. *)
Theorem create_update_pages_without_policies fuel event w pages w1 w2 sends out :
  Event.RequestType event ≠ Delete →
  let policyId := Event.ResourceProperties event !! "policyId" in
  let targetId := Event.ResourceProperties event !! "targetId" in
  let type := Event.ResourceProperties event !! "type" in
  ListsAll type targetId None w pages w1 →
  Forall (λ page, Policies page = None) pages →
  throttlingBackOff maxRetries
    (awaitSend (AttachPolicyCommand policyId targetId)) w1
    = Some (w2, sends, Ok out) →
  (length pages ≤ fuel)%nat →
  handler fuel event w
    = Some (w2, listTrace type targetId None pages ++ sends,
            Ok (Some (attached policyId targetId)))
  ∧ appliedMutations (listTrace type targetId None pages ++ sends)
    = [AttachPolicyCommand policyId targetId]
  ∧ last sends = Some {| command := AttachPolicyCommand policyId targetId;
                         outcome := Ok out |}
  ∧ (Forall (λ s, resolved s = true) sends →
     sends = [{| command := AttachPolicyCommand policyId targetId;
                 outcome := Ok out |}]).
Proof.
  intros Hrt policyId targetId type HL Hnone Hat Hf. split_and!.
  - apply (create_update_attaches fuel event w pages w1 w2 sends out); try done.
    eapply Forall_impl; [exact Hnone|].
    intros page Hp. unfold listed. by rewrite Hp.
  - by apply (attach_run_calls type targetId _ _ pages) in Hat as (? & _).
  - by apply backOff_trace in Hat as (_ & _ & _ & _ & ?).
  - by apply (attach_run_calls type targetId _ _ pages) in Hat
      as (_ & _ & _ & _ & ? & _).
Qed.

End HandlerMore.

(** * Further properties of the construct wrappers *)

Section ConstructMore.

Import Constructs.

Context {cdk : Cdk} {G : Type} {gen : UuidGenerator G}.

(** X14.  The description field of a [Policy] construct is the given
    description, or the empty string when none is given, and its tags
    field is the given list or the empty one; the custom resource,
    however, receives a description exactly when one is given. *)
Theorem policy_description_default asset props g :
  PolicyConstruct.description (PolicyConstruct.fields props)
    = default "" (description props)
  ∧ PolicyConstruct.tags (PolicyConstruct.fields props)
    = default [] (tags props)
  ∧ (properties (Policy asset props g).1 !! "description" = None
     ↔ description props = None).
Proof.
  unfold Policy, PolicyConstruct.fields. destruct (uuidv4 g) as [u g']. cbn.
  unfold spreadPolicyProps, undeclared. split_and!; [|done|].
  - destruct (description props) as [d|]; [|done]. cbn.
    by destruct (String.eqb d "") eqn:Hd; [apply String.eqb_eq in Hd|].
  - destruct (description props), (tags props);
      rewrite ?lookup_insert_ne by done;
      rewrite ?lookup_insert_eq; try done;
      rewrite lookup_union, !lookup_delete_ne by done;
      rewrite lookup_delete_eq; by simplify_map_eq.
Qed.

End ConstructMore.

(** * Properties of the tester pipeline *)

Section StringFacts.

Import JSString.

Implicit Types (s t : string) (c : ascii).

Lemma append_cons c s t : String c s +:+ t = String c (s +:+ t).
Proof. reflexivity. Qed.

Lemma append_empty s : s +:+ "" = s.
Proof. induction s as [|c s IH]; [done|]. by rewrite append_cons, IH. Qed.

Lemma append_length s t :
  String.length (s +:+ t) = String.length s + String.length t.
Proof. induction s as [|c s IH]; [done|]. rewrite append_cons. cbn. by rewrite IH. Qed.

Lemma split_cons a s : ∃ first others, split a s = first :: others.
Proof.
  induction s as [|c s (first & others & IH)]; [by eexists _, _|].
  cbn. rewrite IH. destruct (Ascii.eqb c a); by eexists _, _.
Qed.

Lemma join_cons sep part first others :
  join sep (part :: first :: others) = part +:+ sep +:+ join sep (first :: others).
Proof. done. Qed.

(** Splitting at a character and joining with another one turns every
    occurrence of the first into the second. *)
Lemma join_split a b s :
  join (String b "") (split a s) = substitute a b s.
Proof.
  induction s as [|c s IH]; [done|].
  cbn [split substitute].
  destruct (split_cons a s) as (first & others & Hs). rewrite Hs in IH |- *.
  destruct (Ascii.eqb c a).
  - rewrite join_cons, IH. done.
  - rewrite <- IH. destruct others as [|second others]; [done|].
    rewrite !join_cons. by rewrite append_cons.
Qed.

Lemma includes_app c s t : includes c (s +:+ t) = includes c s || includes c t.
Proof.
  induction s as [|d s IH]; [done|].
  rewrite append_cons. cbn. rewrite IH. by rewrite orb_assoc.
Qed.

Lemma includes_substitute a b s :
  a ≠ b → includes a (substitute a b s) = false.
Proof.
  intros Hab. induction s as [|c s IH]; [done|].
  cbn. rewrite IH, orb_false_r.
  destruct (Ascii.eqb c a) eqn:Hc; [|done].
  apply Ascii.eqb_neq. congruence.
Qed.

Lemma includes_replaceFrom c pattern replacement skip s :
  includes c replacement = false →
  includes c s = false →
  includes c (replaceFrom pattern replacement skip s) = false.
Proof.
  intros Hr. revert skip. induction s as [|d s IH]; intros skip; [done|].
  cbn [includes]. intros [Hd Hs]%orb_false_elim.
  cbn [replaceFrom]. destruct skip as [|skip]; [|by apply IH].
  destruct (startsWithIgnoreCase pattern (String d s)).
  - rewrite includes_app, Hr. by apply IH.
  - cbn [includes]. rewrite Hd. by apply IH.
Qed.

Lemma lowerCase_app s t : lowerCase (s +:+ t) = lowerCase s +:+ lowerCase t.
Proof.
  induction s as [|c s IH]; [done|].
  rewrite append_cons. cbn [lowerCase]. by rewrite IH, append_cons.
Qed.

Lemma lowerCase_length s : String.length (lowerCase s) = String.length s.
Proof. induction s as [|c s IH]; [done|]. cbn. by rewrite IH. Qed.

Lemma replaceFrom_skip pattern replacement pre s :
  replaceFrom pattern replacement (String.length pre) (pre +:+ s)
  = replaceFrom pattern replacement 0 s.
Proof. induction pre as [|c pre IH]; [by destruct s|]. done. Qed.

(** A match, letter case ignored, splits the string into the matched
    text and what follows. *)
Lemma startsWithIgnoreCase_split pattern s :
  startsWithIgnoreCase pattern s = true →
  ∃ pre rest, s = pre +:+ rest
              ∧ lowerCase pre = lowerCase pattern
              ∧ String.length pre = String.length pattern.
Proof.
  revert s. induction pattern as [|p pattern IH]; intros s.
  - intros _. by exists "", s.
  - destruct s as [|c s]; [done|]. cbn [startsWithIgnoreCase].
    intros [Hc Hs]%andb_true_iff. apply Ascii.eqb_eq in Hc.
    destruct (IH s Hs) as (pre & rest & -> & Hl & Hn).
    exists (String c pre), rest. split_and!; [done|cbn; congruence|cbn; lia].
Qed.

Lemma startsWithIgnoreCase_same pattern s :
  lowerCase s = lowerCase pattern → startsWithIgnoreCase pattern s = true.
Proof.
  revert s. induction pattern as [|p pattern IH]; intros s; [done|].
  destruct s as [|c s]; [done|]. cbn. intros [= Hc Hs].
  rewrite Hc, (IH s Hs). by rewrite (proj2 (Ascii.eqb_eq _ _)).
Qed.

(** Replacing by a text that differs from the pattern in letter case
    only leaves the letters as they are, case apart. *)
Lemma replaceFrom_lowerCase pattern replacement s :
  pattern ≠ "" →
  lowerCase replacement = lowerCase pattern →
  lowerCase (replaceFrom pattern replacement 0 s) = lowerCase s.
Proof.
  intros Hne Hsame.
  remember (String.length s) as n eqn:Hn.
  assert (Hle : (String.length s ≤ n)%nat) by lia. clear Hn.
  revert s Hle. induction n as [|n IH]; intros s Hle.
  { by destruct s; [|simpl in Hle; lia]. }
  destruct s as [|c s]; [done|]. cbn [replaceFrom].
  destruct (startsWithIgnoreCase pattern (String c s)) eqn:Hm.
  - apply startsWithIgnoreCase_split in Hm as (pre & rest & Hs & Hl & Hlen).
    destruct pre as [|c' pre].
    { destruct pattern; [done|discriminate Hlen]. }
    rewrite append_cons in Hs. injection Hs as <- ->.
    replace (String.length pattern - 1) with (String.length pre)
      by (simpl in Hlen; lia).
    rewrite replaceFrom_skip, lowerCase_app, Hsame, <- Hl, IH.
    + by rewrite <- lowerCase_app.
    + simpl in Hle. rewrite append_length in Hle. lia.
  - cbn [lowerCase]. rewrite IH; [done|]. simpl in Hle. lia.
Qed.

Lemma substitute_absent a b s : includes a s = false → substitute a b s = s.
Proof.
  induction s as [|c s IH]; [done|].
  cbn. intros [Hc Hs]%orb_false_elim. by rewrite Hc, IH.
Qed.

Lemma includes_lowerCase s :
  includes "_" (lowerCase s) = false → includes "_" s = false.
Proof.
  induction s as [|c s IH]; [done|].
  cbn. intros [Hc Hs]%orb_false_elim. rewrite (IH Hs), orb_false_r.
  apply Ascii.eqb_neq. intros ->. by vm_compute in Hc.
Qed.

(** A text that is the pattern, letter case apart, is replaced as a
    whole. *)
Lemma replaceAll_exact pattern replacement s :
  pattern ≠ "" →
  lowerCase s = lowerCase pattern →
  replaceAllIgnoreCase pattern replacement s = replacement.
Proof.
  intros Hne Hs. unfold replaceAllIgnoreCase.
  assert (Hlen : String.length s = String.length pattern).
  { by rewrite <- (lowerCase_length s), Hs, lowerCase_length. }
  destruct s as [|c s]; [by destruct pattern|].
  cbn [replaceFrom]. rewrite (startsWithIgnoreCase_same _ _ Hs).
  replace (String.length pattern - 1) with (String.length s)
    by (simpl in Hlen; lia).
  rewrite <- (append_empty s) at 2. rewrite replaceFrom_skip.
  apply append_empty.
Qed.

(** X20.  [s.split(a).join(b)] for single characters is [s] with every
    [a] turned into [b]: nothing else changes, and the result has the
    length of [s]. *)
Theorem split_join_substitutes a b s :
  join (String b "") (split a s) = substitute a b s
  ∧ String.length (join (String b "") (split a s)) = String.length s.
Proof.
  rewrite join_split. split; [done|].
  induction s as [|c s IH]; [done|]. cbn. by rewrite IH.
Qed.

End StringFacts.

Section TesterFacts.

Import JSString Tester.

(** X15.  The build project is given the management account id and the
    management role name together or not at all: both variables are set,
    to the values of the props, when both props are non-empty strings,
    and neither is set when either prop is missing or empty. *)
Theorem management_variables_all_or_none props :
  let both := JS.truthy (managementAccountId props)
              && JS.truthy (managementAccountRoleName props) in
  environmentVariables props !! "MANAGEMENT_ACCOUNT_ID"
    = (if both
       then Some {| type := PLAINTEXT;
                    value := JS.toString (managementAccountId props) |}
       else None)
  ∧ environmentVariables props !! "MANAGEMENT_ACCOUNT_ROLE_NAME"
    = (if both
       then Some {| type := PLAINTEXT;
                    value := JS.toString (managementAccountRoleName props) |}
       else None).
Proof.
  unfold environmentVariables, targetAcceleratorEnvVariables.
  destruct (JS.truthy (managementAccountId props)
            && JS.truthy (managementAccountRoleName props)); cbn.
  - split; apply lookup_union_Some_l; by simplify_map_eq.
  - split; by simplify_map_eq.
Qed.

(** X16.  The build project always has the repository name and the
    branch name of the props in its environment, which the management
    variables never replace, and it has no variable besides these four. *)
Theorem repository_variables_always_set props :
  environmentVariables props !! "ACCELERATOR_REPOSITORY_NAME"
    = Some {| type := PLAINTEXT; value := sourceRepositoryName props |}
  ∧ environmentVariables props !! "ACCELERATOR_REPOSITORY_BRANCH_NAME"
    = Some {| type := PLAINTEXT; value := sourceBranchName props |}
  ∧ ∀ k, is_Some (environmentVariables props !! k) →
         k ∈ ["ACCELERATOR_REPOSITORY_NAME"; "ACCELERATOR_REPOSITORY_BRANCH_NAME";
              "MANAGEMENT_ACCOUNT_ID"; "MANAGEMENT_ACCOUNT_ROLE_NAME"].
Proof.
  unfold environmentVariables, targetAcceleratorEnvVariables.
  destruct (JS.truthy (managementAccountId props)
            && JS.truthy (managementAccountRoleName props)); cbn.
  - split_and!.
    + rewrite lookup_union_r; by simplify_map_eq.
    + rewrite lookup_union_r; by simplify_map_eq.
    + intros k [x Hk]. apply lookup_union_Some_raw in Hk as [Hk|[_ Hk]];
        repeat (apply lookup_insert_Some in Hk as [[<- _]|[_ Hk]];
                [set_solver|]);
        by rewrite lookup_empty in Hk.
  - split_and!; [by simplify_map_eq..|].
    intros k [x Hk].
    repeat (apply lookup_insert_Some in Hk as [[<- _]|[_ Hk]];
            [set_solver|]).
    by rewrite lookup_empty in Hk.
Qed.

Section Names.

Variable pascalCase : string → string.

(** X17.  Whatever the qualifier and whatever [pascalCase] makes of it,
    the names of the pipeline and of the build project contain no
    underscore. *)
Theorem names_without_underscore props :
  includes "_" (pipelineName pascalCase props) = false
  ∧ includes "_" (projectName pascalCase props) = false.
Proof.
  assert (Hq : includes "_" (qualifierInPascalCase pascalCase props) = false).
  { unfold qualifierInPascalCase, replaceAllIgnoreCase.
    apply includes_replaceFrom; [done|].
    rewrite join_split. by apply includes_substitute. }
  unfold pipelineName, projectName. by rewrite !includes_app, Hq.
Qed.

(** X18.  The qualifier in the names is what [pascalCase] makes of it
    with underscores turned into hyphens, up to letter case: the
    replacement of 'AwsAccelerator' changes the case of letters only, and
    the length stays. *)
Theorem names_keep_letters props :
  lowerCase (qualifierInPascalCase pascalCase props)
    = lowerCase (substitute "_" "-" (pascalCase (qualifier props)))
  ∧ String.length (qualifierInPascalCase pascalCase props)
    = String.length (pascalCase (qualifier props)).
Proof.
  assert (Hl : lowerCase (qualifierInPascalCase pascalCase props)
               = lowerCase (substitute "_" "-" (pascalCase (qualifier props)))).
  { unfold qualifierInPascalCase, replaceAllIgnoreCase.
    rewrite replaceFrom_lowerCase by done. by rewrite join_split. }
  split; [done|].
  rewrite <- (lowerCase_length (qualifierInPascalCase _ _)), Hl, lowerCase_length.
  generalize (pascalCase (qualifier props)). intros s.
  induction s as [|c s IH]; [done|]. cbn. by rewrite IH.
Qed.

(** X19.  When [pascalCase] makes 'AwsAccelerator' of the qualifier, in
    whatever letter case, the pipeline is named
    'AWSAccelerator-TesterPipeline' and the build project
    'AWSAccelerator-TesterProject'. *)
Theorem accelerator_qualifier_names props :
  lowerCase (pascalCase (qualifier props)) = "awsaccelerator" →
  pipelineName pascalCase props = "AWSAccelerator-TesterPipeline"
  ∧ projectName pascalCase props = "AWSAccelerator-TesterProject".
Proof.
  intros Hq.
  assert (Hn : qualifierInPascalCase pascalCase props = "AWSAccelerator").
  { unfold qualifierInPascalCase. rewrite join_split.
    rewrite substitute_absent.
    - by apply replaceAll_exact.
    - apply includes_lowerCase. by rewrite Hq. }
  unfold pipelineName, projectName. by rewrite Hn.
Qed.

End Names.

End TesterFacts.

(** ** Further scenarios, run *)

Section MoreScenarioRuns.

Import Scripted Scenarios EdgeScenarios ThrottleScenarios.

Lemma create_update_already_attached_witness :
  run 1 createEvent alreadyAttached
    = Some ([Ok attachedPage],
            listTrace (Some "SERVICE_CONTROL_POLICY") (Some "ou-5678") None
              [attachedPage],
            success "p-1234_ou-5678")
  ∧ mutationCalls (listTrace (Some "SERVICE_CONTROL_POLICY") (Some "ou-5678")
                     None [attachedPage]) = []
  ∧ length (listTrace (Some "SERVICE_CONTROL_POLICY") (Some "ou-5678")
              None [attachedPage]) = 1.
Proof.
  apply (create_update_already_attached 1 createEvent alreadyAttached
           [attachedPage] [Ok attachedPage]).
  - discriminate.
  - eapply ListsUntil_found; reflexivity.
  - simpl; lia.
Defined.

Lemma create_update_attach_rejected_witness :
  run 1 createEvent attachAlwaysThrottled
    = Some ([Ok ack],
            listTrace (Some "SERVICE_CONTROL_POLICY") (Some "ou-5678") None
              [page [] None]
              ++ replicate 4 (attachSent (Throw "TooManyRequestsException")),
            Throw "TooManyRequestsException")
  ∧ last (listTrace (Some "SERVICE_CONTROL_POLICY") (Some "ou-5678") None
            [page [] None]
            ++ replicate 4 (attachSent (Throw "TooManyRequestsException")))
    = Some (attachSent (Throw "TooManyRequestsException"))
  ∧ attachCalls
      (listTrace (Some "SERVICE_CONTROL_POLICY") (Some "ou-5678") None
         [page [] None]
         ++ replicate 4 (attachSent (Throw "TooManyRequestsException")))
    = replicate
        (length (replicate 4 (attachSent (Throw "TooManyRequestsException"))))
        (AttachPolicyCommand (Some "p-1234") (Some "ou-5678"))
  ∧ (1 ≤ length (replicate 4 (attachSent (Throw "TooManyRequestsException")))
     ≤ 4)%nat
  ∧ appliedMutations
      (listTrace (Some "SERVICE_CONTROL_POLICY") (Some "ou-5678") None
         [page [] None]
         ++ replicate 4 (attachSent (Throw "TooManyRequestsException")))
    = [].
Proof.
  refine (create_update_attach_rejected 1 createEvent attachAlwaysThrottled
            [page [] None]
            [Throw "TooManyRequestsException"; Throw "TooManyRequestsException";
             Throw "TooManyRequestsException"; Throw "TooManyRequestsException";
             Ok ack]
            [Ok ack]
            (replicate 4 (attachSent (Throw "TooManyRequestsException")))
            "TooManyRequestsException" _ _ _ _ _).
  - discriminate.
  - eapply ListsAll_last; reflexivity.
  - repeat constructor.
  - reflexivity.
  - simpl; lia.
Defined.

Lemma create_update_attaches_at_most_once_witness :
  run 1 createEvent attachThrottled
    = Some ([], attachThrottledTrace, success "p-1234_ou-5678")
  ∧ detachCalls attachThrottledTrace = []
  ∧ (length (appliedMutations attachThrottledTrace) ≤ 1)%nat
  ∧ (length (attachCalls attachThrottledTrace) ≤ 4)%nat
  ∧ (∀ s, s ∈ attachThrottledTrace → isAttach (command s) = true →
          resolved s = true → last attachThrottledTrace = Some s).
Proof.
  split; [reflexivity|].
  refine (create_update_attaches_at_most_once 1 createEvent attachThrottled
            [] attachThrottledTrace (success "p-1234_ou-5678") _ _).
  - discriminate.
  - reflexivity.
Defined.

Lemma requests_concern_event_only_witness :
  Forall
    (λ s, match command s with
          | ListPoliciesForTargetCommand F T _ =>
              F = Event.ResourceProperties createEvent !! "type"
              ∧ T = Event.ResourceProperties createEvent !! "targetId"
          | AttachPolicyCommand P T | DetachPolicyCommand P T =>
              P = Event.ResourceProperties createEvent !! "policyId"
              ∧ T = Event.ResourceProperties createEvent !! "targetId"
          end) attachTrace.
Proof.
  apply (requests_concern_event_only 2 createEvent notAttached
           [Ok attachedPage] attachTrace (success "p-1234_ou-5678")).
  reflexivity.
Defined.

Lemma delete_never_attaches_witness :
  run 1 deleteEvent [Ok attachedPage; Ok ack]
    = Some ([], detachTrace, success "p-1234_ou-5678")
  ∧ attachCalls detachTrace = [].
Proof.
  split; [reflexivity|].
  apply (delete_never_attaches 1 deleteEvent [Ok attachedPage; Ok ack]
           [] detachTrace (success "p-1234_ou-5678")).
  - reflexivity.
  - reflexivity.
Defined.

Lemma create_update_physical_id_witness :
  Some {| Response.PhysicalResourceId := Some "p-1234_ou-5678";
          Response.Status := "SUCCESS" |}
  = Some {| Response.PhysicalResourceId :=
              Some (JS.toString (Event.ResourceProperties updateEvent !! "policyId")
                    +:+ "_"
                    +:+ JS.toString (Event.ResourceProperties updateEvent !! "targetId"));
            Response.Status := "SUCCESS" |}.
Proof.
  apply (create_update_physical_id 2 updateEvent notAttached
           [Ok attachedPage] attachTrace).
  - discriminate.
  - reflexivity.
Defined.

Lemma create_update_without_target_witness :
  run 1 noTargetEvent [Ok (page [] None); Ok ack]
    = Some ([], noTargetTrace, success "p-1234_undefined")
  ∧ Some {| Response.PhysicalResourceId := Some "p-1234_undefined";
            Response.Status := "SUCCESS" |}
    = Some {| Response.PhysicalResourceId := Some ("p-1234" +:+ "_undefined");
              Response.Status := "SUCCESS" |}
  ∧ Forall (λ s, match command s with
                 | ListPoliciesForTargetCommand _ T _
                 | AttachPolicyCommand _ T
                 | DetachPolicyCommand _ T => T = None
                 end) noTargetTrace.
Proof.
  split; [reflexivity|].
  apply (create_update_without_target 1 noTargetEvent
           [Ok (page [] None); Ok ack] [] noTargetTrace).
  - discriminate.
  - reflexivity.
  - reflexivity.
  - reflexivity.
Defined.

Lemma delete_echoes_physical_id_witness :
  Some {| Response.PhysicalResourceId := Some "p-1234_ou-5678";
          Response.Status := "SUCCESS" |}
  = Some {| Response.PhysicalResourceId := Event.PhysicalResourceId deleteEvent;
            Response.Status := "SUCCESS" |}.
Proof.
  apply (delete_echoes_physical_id 1 deleteEvent [Ok attachedPage; Ok ack]
           [] detachTrace).
  - reflexivity.
  - reflexivity.
Defined.

Lemma create_update_without_policy_matches_nameless_witness :
  run 1 noPolicyEvent [Ok namelessPage]
  = Some ([],
          [{| command := ListPoliciesForTargetCommand
                           (Event.ResourceProperties noPolicyEvent !! "type")
                           (Event.ResourceProperties noPolicyEvent !! "targetId")
                           None;
              outcome := Ok namelessPage |}],
          Ok (Some {| Response.PhysicalResourceId :=
                        Some ("undefined_"
                              +:+ JS.toString
                                    (Event.ResourceProperties noPolicyEvent
                                       !! "targetId"));
                      Response.Status := "SUCCESS" |})).
Proof.
  apply (create_update_without_policy_matches_nameless 0 noPolicyEvent
           [Ok namelessPage] [] namelessPage
           {| Id := None; Arn := None; Name := Some "FullAWSAccess";
              Type_ := None |}).
  - discriminate.
  - reflexivity.
  - reflexivity.
  - simpl. apply list_elem_of_here.
  - reflexivity.
Defined.

Lemma delete_detaches_listed_only_witness :
  run 1 deleteEvent detachThrottled
    = Some ([], detachThrottledTrace, success "p-1234_ou-5678")
  ∧ (length (appliedMutations detachThrottledTrace)
     ≤ occurrences (Event.ResourceProperties deleteEvent !! "policyId")
         (pagesOf detachThrottledTrace))%nat
  ∧ (length (detachCalls detachThrottledTrace)
     ≤ occurrences (Event.ResourceProperties deleteEvent !! "policyId")
         (pagesOf detachThrottledTrace) * 4)%nat.
Proof.
  split; [reflexivity|].
  refine (delete_detaches_listed_only 1 deleteEvent detachThrottled
            [] detachThrottledTrace (success "p-1234_ou-5678") _ _).
  - reflexivity.
  - reflexivity.
Defined.

Lemma list_rejection_prevents_attach_witness :
  run 1 createEvent [Throw "AccessDeniedException"]
    = Some ([], [listSent None (Throw "AccessDeniedException")],
            Throw "AccessDeniedException")
  ∧ Throw (A := option Response.t) "AccessDeniedException"
    = Throw "AccessDeniedException"
  ∧ attachCalls [listSent None (Throw "AccessDeniedException")] = [].
Proof.
  split; [reflexivity|].
  apply (list_rejection_prevents_attach 1 createEvent
           [Throw "AccessDeniedException"] []
           [listSent None (Throw "AccessDeniedException")]
           (Throw "AccessDeniedException")
           (listSent None (Throw "AccessDeniedException"))
           "AccessDeniedException").
  - discriminate.
  - reflexivity.
  - apply list_elem_of_here.
  - reflexivity.
  - reflexivity.
Defined.

Lemma create_update_pages_without_policies_witness :
  run 1 createEvent [Ok ack; Ok ack]
    = Some ([],
            listTrace (Some "SERVICE_CONTROL_POLICY") (Some "ou-5678") None [ack]
              ++ [attachSent (Ok ack)],
            success "p-1234_ou-5678")
  ∧ appliedMutations
      (listTrace (Some "SERVICE_CONTROL_POLICY") (Some "ou-5678") None [ack]
         ++ [attachSent (Ok ack)])
    = [AttachPolicyCommand (Some "p-1234") (Some "ou-5678")]
  ∧ last [attachSent (Ok ack)] = Some (attachSent (Ok ack))
  ∧ (Forall (λ s, resolved s = true) [attachSent (Ok ack)] →
     [attachSent (Ok ack)] = [attachSent (Ok ack)]).
Proof.
  refine (create_update_pages_without_policies 1 createEvent [Ok ack; Ok ack]
            [ack] [Ok ack] [] [attachSent (Ok ack)] ack _ _ _ _ _).
  - discriminate.
  - eapply ListsAll_last; reflexivity.
  - repeat constructor.
  - reflexivity.
  - simpl; lia.
Defined.

Lemma accelerator_qualifier_names_witness :
  Tester.pipelineName (λ _, "AwsAccelerator") fullProps
    = "AWSAccelerator-TesterPipeline"
  ∧ Tester.projectName (λ _, "AwsAccelerator") fullProps
    = "AWSAccelerator-TesterProject".
Proof.
  apply (accelerator_qualifier_names (λ _, "AwsAccelerator") fullProps).
  reflexivity.
Defined.

End MoreScenarioRuns.
